(** * yrweather: the meteogram widget's acquisition and rendering pipeline

    A shallow embedding of [src/runtime/widget.tsx] (both revisions of the
    file: the one with the forecast path and the one with the external-view
    degradation) and the properties of its pipeline.

    Modelling conventions.
    - JavaScript strings are [string]s of 8-bit characters; the white space
      of [trim] and of the regular expressions' [\s] is the ASCII white
      space, and case folding is ASCII case folding.
    - JavaScript numbers that come out of JSON are exact rationals ([Q]):
      rounding and overflow of doubles are outside the model.  Where the
      source tests finiteness ([parseFloat] followed by [Number.isFinite])
      numbers carry their non-finite values explicitly ([number]).
    - The browser's [URL] and [DOMParser] are capabilities of the host
      ([UrlApi], [DomApi]), and so are the clock and the text that the
      chart template builds with [toFixed] and [Intl.DateTimeFormat]
      ([ForecastHost]); the widget's code is modelled over any host.
    - Promise callbacks and timers are explicit: a handler is a function on
      the [World] (component state, configuration, pending timers, calls of
      [onSettingChange]) and the network's answer is an argument.
    - The life cycle is a step function on the [Component]: the world, the
      [refreshIntervalId] field and the intervals that run on the host. *)

From Stdlib Require Import List String Ascii Bool Arith ZArith QArith Qpower Qround Lia Lqa.
Import ListNotations.
Open Scope string_scope.
Set Warnings "-register-all".

(* ------------------------------------------------------------------ *)
(** ** Characters and strings *)

Definition dquote : ascii := ascii_of_nat 34.
Definition newline : ascii := ascii_of_nat 10.

Definition isDigit (c : ascii) : bool :=
  (48 <=? nat_of_ascii c)%nat && (nat_of_ascii c <=? 57)%nat.

(** White space: TAB, LF, VT, FF, CR and SPACE. *)
Definition isSpace (c : ascii) : bool :=
  let n := nat_of_ascii c in
  ((9 <=? n)%nat && (n <=? 13)%nat) || (n =? 32)%nat.

Definition toLowerChar (c : ascii) : ascii :=
  let n := nat_of_ascii c in
  if (65 <=? n)%nat && (n <=? 90)%nat then ascii_of_nat (n + 32) else c.

Fixpoint toLowerCase (s : string) : string :=
  match s with
  | EmptyString => EmptyString
  | String c r => String (toLowerChar c) (toLowerCase r)
  end.

Fixpoint trimStart (s : string) : string :=
  match s with
  | String c r => if isSpace c then trimStart r else s
  | EmptyString => EmptyString
  end.

(** [trimEnd] keeps a character when it is not white space or when something
    that is kept follows it. *)
Fixpoint trimEnd (s : string) : string :=
  match s with
  | EmptyString => EmptyString
  | String c r =>
      match trimEnd r with
      | EmptyString => if isSpace c then EmptyString else String c EmptyString
      | r' => String c r'
      end
  end.

Definition trim (s : string) : string := trimEnd (trimStart s).

(** [s.startsWith(p)] *)
Fixpoint startsWith (p s : string) : bool :=
  match p, s with
  | EmptyString, _ => true
  | String a p', String b s' => Ascii.eqb a b && startsWith p' s'
  | String _ _, EmptyString => false
  end.

(** [s.startsWith(p)] up to ASCII case, with the rest of [s] after the
    prefix: the building block of the case-insensitive patterns. *)
Fixpoint eatCI (p s : string) : option string :=
  match p, s with
  | EmptyString, _ => Some s
  | String a p', String b s' =>
      if Ascii.eqb (toLowerChar a) (toLowerChar b) then eatCI p' s' else None
  | String _ _, EmptyString => None
  end.

Fixpoint dropWhile (f : ascii -> bool) (s : string) : string :=
  match s with
  | String c r => if f c then dropWhile f r else s
  | EmptyString => EmptyString
  end.

(** [s.split(sep)] for a one-character separator: never the empty list. *)
Fixpoint split (sep : ascii) (s : string) : list string :=
  match s with
  | EmptyString => [EmptyString]
  | String c r =>
      if Ascii.eqb c sep then EmptyString :: split sep r
      else match split sep r with
           | h :: t => String c h :: t
           | [] => [String c EmptyString]
           end
  end.

(** JavaScript truthiness of a string. *)
Definition nonEmpty (s : string) : bool :=
  match s with EmptyString => false | _ => true end.

(* ------------------------------------------------------------------ *)
(** ** Numbers *)

(** A JavaScript number where the source cares whether it is finite. *)
Inductive number : Type :=
| Finite (q : Q)
| NaN
| Infinity (negative : bool).

Definition Number_isFinite (n : number) : bool :=
  match n with Finite _ => true | _ => false end.

Definition digitVal (c : ascii) : Z := Z.of_nat (nat_of_ascii c - 48).

(** Reads the decimal digits at the front of [s]: the value read so far, the
    number of digits read, and what follows them. *)
Fixpoint readDigits (s : string) (acc : Z) (n : nat) : Z * nat * string :=
  match s with
  | String c r =>
      if isDigit c then readDigits r (10 * acc + digitVal c)%Z (S n)
      else (acc, n, s)
  | EmptyString => (acc, n, s)
  end.

Definition pow10 (e : Z) : Q := Qpower (10 # 1) e.

(** An optional sign: whether it is a minus, and what follows it. *)
Definition readSign (s : string) : bool * string :=
  match s with
  | String c r =>
      if Ascii.eqb c "-" then (true, r)
      else if Ascii.eqb c "+" then (false, r)
      else (false, s)
  | EmptyString => (false, s)
  end.

(** The optional exponent part [e[+-]ddd] of a decimal literal; an [e]
    that no digit follows is not part of the literal. *)
Definition readExponent (s : string) : Z :=
  match s with
  | String c r =>
      if Ascii.eqb (toLowerChar c) "e"%char then
        let '(neg, r') := readSign r in
        let '(v, n, _) := readDigits r' 0%Z 0%nat in
        match n with
        | O => 0%Z
        | S _ => if neg then (- v)%Z else v
        end
      else 0%Z
  | EmptyString => 0%Z
  end.

(** [parseFloat]: the longest prefix of the trimmed string that is a
    decimal literal, [NaN] when there is none. *)
Definition parseFloat (s : string) : number :=
  let '(neg, s2) := readSign (trimStart s) in
  if startsWith "Infinity" s2 then Infinity neg
  else
    let '(ip, ni, s3) := readDigits s2 0%Z 0%nat in
    let mant : option (Q * string) :=
      match s3 with
      | String "."%char r =>
          let '(fp, nf, s4) := readDigits r 0%Z 0%nat in
          match ni, nf with
          | O, O => None
          | _, _ => Some (inject_Z ip + inject_Z fp / pow10 (Z.of_nat nf), s4)
          end
      | _ => match ni with O => None | S _ => Some (inject_Z ip, s3) end
      end in
    match mant with
    | None => NaN
    | Some (m, rest) =>
        let v := m * pow10 (readExponent rest) in
        Finite (if neg then - v else v)
    end.

(* ------------------------------------------------------------------ *)
(** ** CoordinateExtractor *)

(** The host's [new URL(url).pathname]; [None] when the constructor
    throws. *)
Class UrlApi : Type := { URL_pathname : string -> option string }.

Record Coordinates : Type := { lat : number; lon : number }.

(** One or more digits: what follows them. *)
Definition digits1 (s : string) : option string :=
  match s with
  | String c r => if isDigit c then Some (dropWhile isDigit r) else None
  | EmptyString => None
  end.

Definition expect (c : ascii) (s : string) : option string :=
  match s with
  | String d r => if Ascii.eqb c d then Some r else None
  | EmptyString => None
  end.

Definition optional (c : ascii) (s : string) : string :=
  match s with
  | String d r => if Ascii.eqb c d then r else s
  | EmptyString => s
  end.

Definition andThen {A B : Type} (o : option A) (f : A -> option B) : option B :=
  match o with Some a => f a | None => None end.

Notation "x >>= f" := (andThen x f) (at level 50, left associativity).

Definition isSome {A : Type} (o : option A) : bool :=
  match o with Some _ => true | None => false end.

(** A match of [-?\d+\.\d+,-?\d+\.\d+] that starts at the front of [s]:
    what follows the match.  Each greedy [\d+] is followed by a character
    that is no digit, so the match never backtracks. *)
Definition coordPatternAt (s : string) : option string :=
  digits1 (optional "-" s) >>= expect "." >>= digits1 >>= expect ","
    >>= (fun r => digits1 (optional "-" r)) >>= expect "."
    >>= (fun r => match r with
                  | String c r' => if isDigit c then Some r' else None
                  | EmptyString => None
                  end).

(** [/-?\d+\.\d+,-?\d+\.\d+/.test(seg)]: the pattern is not anchored, a
    match may start anywhere in the segment. *)
Fixpoint coordPattern_test (seg : string) : bool :=
  match coordPatternAt seg with
  | Some _ => true
  | None => match seg with
            | String _ r => coordPattern_test r
            | EmptyString => false
            end
  end.

(** [parsed.pathname.split('/').filter(Boolean)] *)
Definition pathSegments (pathname : string) : list string :=
  filter nonEmpty (split "/" pathname).

Definition extractCoordinates `{UrlApi} (url : string) : option Coordinates :=
  match URL_pathname url with
  | None => None                                   (* catch (err) *)
  | Some pathname =>
      match find coordPattern_test (pathSegments pathname) with
      | None => None
      | Some coordSegment =>
          let parts := split "," coordSegment in
          let lat := match parts with latRaw :: _ => parseFloat latRaw | [] => NaN end in
          let lon := match parts with _ :: lonRaw :: _ => parseFloat lonRaw | _ => NaN end in
          if Number_isFinite lat && Number_isFinite lon
          then Some {| lat := lat; lon := lon |}
          else None
      end
  end.

(** *** Vocabulary of the properties of the extractor *)

Fixpoint allDigits (s : string) : bool :=
  match s with
  | EmptyString => true
  | String c r => isDigit c && allDigits r
  end.

(** The value of a string of digits in positional notation. *)
Fixpoint digitsValue (s : string) : Z :=
  match s with
  | EmptyString => 0
  | String c r => digitVal c * 10 ^ Z.of_nat (String.length r) + digitsValue r
  end.

(** The text and the value of a signed decimal [-?i.f]. *)
Definition signedDecimal (neg : bool) (i f : string) : string :=
  (if neg then "-" else EmptyString) ++ i ++ String "."%char f.

Definition decimalValue (neg : bool) (i f : string) : Q :=
  let v := inject_Z (digitsValue i)
           + inject_Z (digitsValue f) / inject_Z (10 ^ Z.of_nat (String.length f)) in
  if neg then - v else v.

Definition digitString (s : string) : bool := nonEmpty s && allDigits s.

Definition startsWithDigit (s : string) : bool :=
  match s with String c _ => isDigit c | EmptyString => false end.

Fixpoint lacks (c : ascii) (s : string) : bool :=
  match s with
  | EmptyString => true
  | String d r => negb (Ascii.eqb d c) && lacks c r
  end.

(** The whole segment is a match of the pattern: [^-?\d+\.\d+,-?\d+\.\d+$]. *)
Definition signedDecimalPair (seg : string) : bool :=
  match digits1 (optional "-" seg) >>= expect "." >>= digits1 >>= expect ","
        >>= (fun r => digits1 (optional "-" r)) >>= expect "." >>= digits1 with
  | Some EmptyString => true
  | _ => false
  end.

(** The bounds of the data model: latitude in [-90, 90], longitude in
    [-180, 180]. *)
Definition withinBounds (c : Coordinates) : Prop :=
  match lat c, lon c with
  | Finite la, Finite lo => (- (90) <= la /\ la <= 90) /\ (- (180) <= lo /\ lo <= 180)
  | _, _ => False
  end.

(** A host for examples: [scheme://authority/path?query#fragment] without
    the normalisations of the URL standard. *)
Fixpoint takeWhile (f : ascii -> bool) (s : string) : string :=
  match s with
  | String c r => if f c then String c (takeWhile f r) else EmptyString
  | EmptyString => EmptyString
  end.

Definition isSchemeChar (c : ascii) : bool :=
  let n := nat_of_ascii (toLowerChar c) in
  ((97 <=? n)%nat && (n <=? 122)%nat) || isDigit c
  || Ascii.eqb c "+" || Ascii.eqb c "-" || Ascii.eqb c ".".

Definition isPathChar (c : ascii) : bool :=
  negb (Ascii.eqb c "?" || Ascii.eqb c "#").

Definition isAuthorityChar (c : ascii) : bool :=
  negb (Ascii.eqb c "/" || Ascii.eqb c "?" || Ascii.eqb c "#").

Definition simplePathname (url : string) : option string :=
  match dropWhile isSchemeChar url with
  | String ":"%char (String "/"%char (String "/"%char r)) =>
      match takeWhile isSchemeChar url with
      | EmptyString => None
      | _ =>
          match takeWhile isPathChar (dropWhile isAuthorityChar r) with
          | EmptyString => Some "/"
          | p => Some p
          end
      end
  | _ => None
  end.

Definition simpleUrl : UrlApi := {| URL_pathname := simplePathname |}.

(* ------------------------------------------------------------------ *)
(** ** ForecastTransformer *)

(** A parsed JSON value.  An object lists its own properties, each name
    once.  [undefined] is the absence of a value ([option JSON]). *)
Inductive JSON : Type :=
| JNull
| JBool (b : bool)
| JNumber (q : Q)
| JString (s : string)
| JArray (items : list JSON)
| JObject (fields : list (string * JSON)).

Fixpoint lookup {A : Type} (name : string) (fields : list (string * A)) : option A :=
  match fields with
  | [] => None
  | (k, v) :: rest => if String.eqb k name then Some v else lookup name rest
  end.

(** [v?.name]: [undefined] on [undefined], on [null] and on a value that has
    no such property. *)
Definition getProp (v : option JSON) (name : string) : option JSON :=
  match v with
  | Some (JObject fields) => lookup name fields
  | _ => None
  end.

Notation "v ?. name" := (getProp v name) (at level 40, left associativity).

(** [v ?? d] *)
Definition orElse (v : option JSON) (d : JSON) : JSON :=
  match v with
  | None | Some JNull => d
  | Some x => x
  end.

Definition truthy (v : option JSON) : bool :=
  match v with
  | None | Some JNull => false
  | Some (JBool b) => b
  | Some (JNumber q) => negb (Qeq_bool q 0)
  | Some (JString s) => nonEmpty s
  | Some (JArray _) | Some (JObject _) => true
  end.

(** [typeof v === 'number' ? v : ...] *)
Definition asNumber (v : option JSON) : option Q :=
  match v with Some (JNumber q) => Some q | _ => None end.

Record ForecastPoint : Type := {
  time : JSON;
  temperature : Q;
  windSpeed : Q;
  windGust : option Q;
  precipitation : option Q
}.

Record ForecastPayload : Type := {
  updatedAt : JSON;
  points : list ForecastPoint
}.

Definition firstSome {A : Type} (a b : option A) : option A :=
  match a with Some _ => a | None => b end.

(** The body of the loop over [series.slice(0, 48)]: [continue] leaves
    [points] as it is, [points.push] appends. *)
Definition transformEntry (points : list ForecastPoint) (entry : JSON)
  : list ForecastPoint :=
  let time := Some entry ?. "time" in
  let instant := orElse (Some entry ?. "data" ?. "instant" ?. "details") (JObject []) in
  match time, truthy time,
        asNumber (Some instant ?. "air_temperature"),
        asNumber (Some instant ?. "wind_speed") with
  | Some t, true, Some air_temperature, Some wind_speed =>
      let next1 := orElse (Some entry ?. "data" ?. "next_1_hours" ?. "details") JNull in
      let next6 := orElse (Some entry ?. "data" ?. "next_6_hours" ?. "details") JNull in
      points ++
      [ {| time := t;
           temperature := air_temperature;
           windSpeed := wind_speed;
           windGust :=
             firstSome (asNumber (Some instant ?. "wind_speed_of_gust"))
               (firstSome (asNumber (Some next1 ?. "wind_speed_of_gust"))
                  (asNumber (Some next6 ?. "wind_speed_of_gust")));
           precipitation :=
             firstSome (asNumber (Some next1 ?. "precipitation_amount"))
               (option_map (fun v => v / 6)
                  (asNumber (Some next6 ?. "precipitation_amount"))) |} ]
  | _, _, _, _ => points
  end.

(** [now] is [new Date().toISOString()]. *)
Definition transformForecast (now : string) (data : JSON) : option ForecastPayload :=
  let updated_at := Some data ?. "properties" ?. "meta" ?. "updated_at" in
  let series :=
    match Some data ?. "properties" ?. "timeseries" with
    | Some (JArray items) => items
    | _ => []
    end in
  match series with
  | [] => None
  | _ =>
      match fold_left transformEntry (firstn 48 series) [] with
      | [] => None
      | pts =>
          Some {| updatedAt := match updated_at with
                               | Some u => if truthy updated_at then u else JString now
                               | None => JString now
                               end;
                  points := pts |}
      end
  end.

(** *** Vocabulary of the properties of the transformer *)

(** [data.properties.timeseries] when it is an array. *)
Definition seriesOf (data : JSON) : list JSON :=
  match Some data ?. "properties" ?. "timeseries" with
  | Some (JArray items) => items
  | _ => []
  end.

Definition pointsOf (r : option ForecastPayload) : list ForecastPoint :=
  match r with Some payload => points payload | None => [] end.

Definition detailsOf (entry : JSON) (block name : string) : option JSON :=
  Some entry ?. "data" ?. block ?. "details" ?. name.

(** An entry with a timestamp and numeric instantaneous temperature and
    wind speed. *)
Definition usable (entry : JSON) : bool :=
  truthy (Some entry ?. "time")
  && isSome (asNumber (detailsOf entry "instant" "air_temperature"))
  && isSome (asNumber (detailsOf entry "instant" "wind_speed")).

(** The point [p] carries the timestamp and the readings of [entry]. *)
Definition describes (entry : JSON) (p : ForecastPoint) : Prop :=
  Some entry ?. "time" = Some (time p)
  /\ asNumber (detailsOf entry "instant" "air_temperature") = Some (temperature p)
  /\ asNumber (detailsOf entry "instant" "wind_speed") = Some (windSpeed p).

(** Wind gust: the instantaneous value, else the one of the next hour, else
    the one of the next six hours. *)
Definition gustOf (entry : JSON) : option Q :=
  match asNumber (detailsOf entry "instant" "wind_speed_of_gust") with
  | Some g => Some g
  | None =>
      match asNumber (detailsOf entry "next_1_hours" "wind_speed_of_gust") with
      | Some g => Some g
      | None => asNumber (detailsOf entry "next_6_hours" "wind_speed_of_gust")
      end
  end.

(** Precipitation: the amount of the next hour, else a sixth of the amount
    of the next six hours. *)
Definition precipitationOf (entry : JSON) : option Q :=
  match asNumber (detailsOf entry "next_1_hours" "precipitation_amount") with
  | Some v => Some v
  | None =>
      match asNumber (detailsOf entry "next_6_hours" "precipitation_amount") with
      | Some v => Some (v / 6)
      | None => None
      end
  end.

Definition resolves (entry : JSON) (p : ForecastPoint) : Prop :=
  windGust p = gustOf entry /\ precipitation p = precipitationOf entry.

(* ------------------------------------------------------------------ *)
(** ** ChartRenderer: the scales of [generateForecastSvg] *)

Definition qmax (a b : Q) : Q := if Qle_bool a b then b else a.
Definition qmin (a b : Q) : Q := if Qle_bool a b then a else b.

(** [Math.max(...xs, d)] and [Math.min(...xs, d)] *)
Definition Math_max (xs : list Q) (d : Q) : Q := fold_right qmax d xs.
Definition Math_min (xs : list Q) (d : Q) : Q := fold_right qmin d xs.

Module Chart.
Definition width : Q := 960.
Definition height : Q := 540.
Definition margin_top : Q := 64.
Definition margin_right : Q := 36.
Definition margin_bottom : Q := 80.
Definition margin_left : Q := 72.
Definition innerWidth : Q := width - margin_left - margin_right.
Definition innerHeight : Q := height - margin_top - margin_bottom.
Definition tempSection : Q := innerHeight * (55 # 100).
Definition precipSection : Q := innerHeight * (25 # 100).
Definition windSection : Q := innerHeight * (2 # 10).

Section Scales.
Variable pts : list ForecastPoint.

Definition temperatures : list Q := map temperature pts.
Definition windSpeeds : list Q := map windSpeed pts.
Definition gusts : list Q :=
  map (fun p => match windGust p with Some g => g | None => windSpeed p end) pts.
Definition precipValues : list Q :=
  map (fun p => match precipitation p with Some v => v | None => 0 end) pts.

Definition tempMax : Q := Math_max temperatures 5.
Definition tempMin : Q := Math_min temperatures (-5).
Definition tempRange : Q := qmax (tempMax - tempMin) 5.

Definition windMax : Q := Math_max (gusts ++ windSpeeds) 5.
Definition precipMax : Q := Math_max precipValues 1.

Definition xStep : Q :=
  if (1 <? List.length pts)%nat
  then innerWidth / inject_Z (Z.of_nat (List.length pts - 1))
  else 0.

Definition xPos (index : nat) : Q := margin_left + xStep * inject_Z (Z.of_nat index).
Definition tempY (value : Q) : Q :=
  margin_top + (tempMax - value) / tempRange * tempSection.
Definition precipHeight (value : Q) : Q := (value / precipMax) * precipSection.
Definition precipBase : Q := margin_top + tempSection + precipSection.
Definition windYBase : Q := precipBase + windSection.
Definition windY (value : Q) : Q := windYBase - (value / windMax) * windSection.
End Scales.
End Chart.

(* ------------------------------------------------------------------ *)
(** ** SvgSanitizer: the document transform of [processSvg] *)

(** A DOM node: character data or an element with its attributes in
    document order and its children. *)
Inductive Node : Type :=
| Text (data : string)
| Element (tag : string) (attrs : list (string * string)) (children : list Node).

Definition Attrs : Type := list (string * string).

Definition getAttribute (name : string) (a : Attrs) : option string := lookup name a.

Definition hasAttribute (name : string) (a : Attrs) : bool :=
  match getAttribute name a with Some _ => true | None => false end.

Definition removeAttribute (name : string) (a : Attrs) : Attrs :=
  filter (fun kv => negb (String.eqb (fst kv) name)) a.

(** [setAttribute] overwrites the value in place or appends the attribute. *)
Fixpoint setAttribute (name value : string) (a : Attrs) : Attrs :=
  match a with
  | [] => [(name, value)]
  | (k, v) :: rest =>
      if String.eqb k name then (k, value) :: rest
      else (k, v) :: setAttribute name value rest
  end.

Fixpoint drop (n : nat) (s : string) : string :=
  match n, s with
  | S k, String _ r => drop k r
  | _, _ => s
  end.

(** [s.replace(p, '')] with a string pattern: the first occurrence only. *)
Fixpoint removeFirst (p s : string) : string :=
  if startsWith p s then drop (String.length p) s
  else match s with
       | String c r => String c (removeFirst p r)
       | EmptyString => EmptyString
       end.

Definition isElementNamed (name : string) (n : Node) : bool :=
  match n with
  | Element tag _ _ => String.eqb tag name
  | Text _ => false
  end.

(** [n.querySelectorAll(name).forEach(e => e.remove())] on the subtree
    below [n]. *)
Fixpoint removeElements (name : string) (n : Node) : Node :=
  match n with
  | Text _ => n
  | Element tag a cs =>
      Element tag a
        (filter (fun c => negb (isElementNamed name c)) (map (removeElements name) cs))
  end.

(** Applies [f] to the attributes of the element [n] and of every element
    below it. *)
Fixpoint mapElements (f : string -> Attrs -> Attrs) (n : Node) : Node :=
  match n with
  | Text _ => n
  | Element tag a cs => Element tag (f tag a) (map (mapElements f) cs)
  end.

(** The same for the elements below [n] only: what a [querySelectorAll] on
    [n] followed by [forEach] reaches. *)
Definition forDescendants (f : string -> Attrs -> Attrs) (n : Node) : Node :=
  match n with
  | Text _ => n
  | Element tag a cs => Element tag a (map (mapElements f) cs)
  end.

(** [isWhite] of [processSvg] *)
Definition isWhite (v : option string) : bool :=
  let t := toLowerCase (trim (match v with Some s => s | None => EmptyString end)) in
  String.eqb t "#fff" || String.eqb t "#ffffff" || String.eqb t "white"
  || String.eqb t "rgb(255,255,255)".

Definition skipSpaces (s : string) : option string := Some (dropWhile isSpace s).

(** [\s*fill\s*:] at the front of [s], ignoring case: what follows. *)
Definition fillProperty (s : string) : option string :=
  eatCI "fill" (dropWhile isSpace s) >>= skipSpaces >>= expect ":".

(** [(#fff|#ffffff|white|rgb\(\s*255\s*,\s*255\s*,\s*255\s*\))] at the
    front of [s], ignoring case. *)
Definition whiteValue (s : string) : bool :=
  isSome (eatCI "#fff" s) || isSome (eatCI "#ffffff" s) || isSome (eatCI "white" s)
  || isSome (eatCI "rgb(" s >>= skipSpaces >>= eatCI "255" >>= skipSpaces
             >>= expect "," >>= skipSpaces >>= eatCI "255" >>= skipSpaces
             >>= expect "," >>= skipSpaces >>= eatCI "255" >>= skipSpaces
             >>= expect ")").

(** The pattern of [whiteFillStyle_test] after its [(^|;)]; the trailing
    [\s*;?] matches anything. *)
Definition whiteFillAt (s : string) : bool :=
  match fillProperty s with
  | Some r => whiteValue (dropWhile isSpace r)
  | None => false
  end.

Fixpoint whiteFillAfterSemicolon (s : string) : bool :=
  match s with
  | String c r =>
      (Ascii.eqb c ";" && whiteFillAt r) || whiteFillAfterSemicolon r
  | EmptyString => false
  end.

(** [/(^|;)\s*fill\s*:\s*(#fff|#ffffff|white|rgb\(\s*255\s*,\s*255\s*,\s*255\s*\))\s*;?/i.test(style)] *)
Definition whiteFillStyle_test (style : string) : bool :=
  whiteFillAt style || whiteFillAfterSemicolon style.

Definition notSemicolon (c : ascii) : bool := negb (Ascii.eqb c ";").

(** The length of a match of [\s*fill\s*:\s*[^;]+;?] at the front of [s].
    After the colon [\s*[^;]+] takes every character up to the next
    semicolon and needs one at least. *)
Definition fillDeclLength (s : string) : option nat :=
  match fillProperty s with
  | Some (String c r) =>
      if notSemicolon c then
        Some (String.length s - String.length (optional ";" (dropWhile notSemicolon r)))%nat
      else None
  | _ => None
  end.

(** The scan of [style.replace(/(^|;)\s*fill\s*:\s*[^;]+;?/ig, '$1')]:
    [skip] characters of the current match are still to be dropped;
    [atStart] is true at index 0, where [^] matches.  A match is replaced
    by its group 1 and the scan goes on behind it. *)
Fixpoint replaceFillDecls (atStart : bool) (skip : nat) (s : string) : string :=
  match s with
  | EmptyString => EmptyString
  | String c r =>
      match skip with
      | S k => replaceFillDecls false k r
      | O =>
          match (if atStart then fillDeclLength s else None) with
          | Some n => replaceFillDecls false (n - 1) r
          | None =>
              match (if Ascii.eqb c ";" then fillDeclLength r else None) with
              | Some n => String c (replaceFillDecls false n r)
              | None => String c (replaceFillDecls false 0 r)
              end
          end
      end
  end.

Definition stripFillDecls (style : string) : string := replaceFillDecls true 0 style.

Definition orEmpty (v : option string) : string :=
  match v with Some s => s | None => EmptyString end.

(** The callback of [svg.querySelectorAll('rect').forEach]. *)
Definition recolorRect (tag : string) (a : Attrs) : Attrs :=
  if String.eqb tag "rect" then
    let fill := getAttribute "fill" a in
    let style := orEmpty (getAttribute "style" a) in
    if isWhite fill || whiteFillStyle_test style
    then setAttribute "style" (stripFillDecls style) (setAttribute "fill" "none" a)
    else a
  else a.

(** The style that [processSvg] forces on the content of a foreignObject. *)
Definition forcedBackground (overallBackground : string) (a : Attrs) : Attrs :=
  setAttribute "style"
    (orEmpty (getAttribute "style" a) ++ ";background:" ++ overallBackground ++ " !important;")
    a.

(** [fo.querySelector('*')] is the first element child of [fo]. *)
Fixpoint paintFirstElement (overallBackground : string) (cs : list Node) : list Node :=
  match cs with
  | [] => []
  | Text d :: rest => Text d :: paintFirstElement overallBackground rest
  | Element tag a kids :: rest => Element tag (forcedBackground overallBackground a) kids :: rest
  end.

(** [querySelectorAll('foreignObject').forEach] on [n] and the subtree
    below it. *)
Fixpoint paintForeignObjects (overallBackground : string) (n : Node) : Node :=
  match n with
  | Text _ => n
  | Element tag a cs =>
      let cs' := map (paintForeignObjects overallBackground) cs in
      Element tag a
        (if String.eqb tag "foreignObject" then paintFirstElement overallBackground cs'
         else cs')
  end.

Definition onChildren (f : Node -> Node) (n : Node) : Node :=
  match n with
  | Text _ => n
  | Element tag a cs => Element tag a (map f cs)
  end.

Definition onAttrs (f : Attrs -> Attrs) (n : Node) : Node :=
  match n with
  | Text _ => n
  | Element tag a cs => Element tag (f a) cs
  end.

(** [if (!svg.hasAttribute('viewBox')) ...] *)
Definition synthesizeViewBox (a : Attrs) : Attrs :=
  if hasAttribute "viewBox" a then a
  else
    match option_map (removeFirst "px") (getAttribute "width" a),
          option_map (removeFirst "px") (getAttribute "height" a) with
    | Some w, Some h =>
        if nonEmpty w && nonEmpty h
        then setAttribute "viewBox" ("0 0 " ++ w ++ " " ++ h) a
        else a
    | _, _ => a
    end.

Definition ensurePreserveAspectRatio (a : Attrs) : Attrs :=
  if nonEmpty (orEmpty (getAttribute "preserveAspectRatio" a)) then a
  else setAttribute "preserveAspectRatio" "xMidYMid meet" a.

Definition removeFilterAttribute (tag : string) (a : Attrs) : Attrs :=
  removeAttribute "filter" a.

(** The mutations [processSvg] applies to the [svg] element it found, in
    the order of the source. *)
Definition sanitizeSvg (overallBackground : string) (svg : Node) : Node :=
  let svg := onAttrs synthesizeViewBox svg in
  let svg := onAttrs (removeAttribute "width") svg in
  let svg := onAttrs (removeAttribute "height") svg in
  let svg := onAttrs ensurePreserveAspectRatio svg in
  let svg := removeElements "style" svg in
  let svg := removeElements "filter" svg in
  let svg := forDescendants removeFilterAttribute svg in
  let svg := forDescendants recolorRect svg in
  onChildren (paintForeignObjects overallBackground) svg.

(** *** Vocabulary of the properties of the sanitizer *)

Definition isElement (n : Node) : bool :=
  match n with Element _ _ _ => true | Text _ => false end.

Fixpoint allElements (p : string -> Attrs -> list Node -> bool) (n : Node) : bool :=
  match n with
  | Text _ => true
  | Element tag a cs => p tag a cs && forallb (allElements p) cs
  end.

Definition allDescendants (p : string -> Attrs -> list Node -> bool) (n : Node) : bool :=
  match n with
  | Text _ => true
  | Element _ _ cs => forallb (allElements p) cs
  end.

Definition whiteRect (a : Attrs) : bool :=
  isWhite (getAttribute "fill" a) || whiteFillStyle_test (orEmpty (getAttribute "style" a)).

Definition repeatableElement (tag : string) (a : Attrs) (cs : list Node) : bool :=
  (negb (String.eqb tag "foreignObject") || negb (existsb isElement cs))
  && (negb (String.eqb tag "rect" && whiteRect a)
      || negb (whiteFillStyle_test (stripFillDecls (orEmpty (getAttribute "style" a))))).

Definition repeatable (svg : Node) : bool := allDescendants repeatableElement svg.

Definition settledElement (tag : string) (a : Attrs) (cs : list Node) : bool :=
  negb (String.eqb tag "style") && negb (String.eqb tag "filter")
  && negb (hasAttribute "filter" a)
  && negb (String.eqb tag "rect" && whiteRect a)
  && (negb (String.eqb tag "foreignObject") || negb (existsb isElement cs)).


Definition rootAttrs (a : Attrs) : Attrs :=
  ensurePreserveAspectRatio
    (removeAttribute "height" (removeAttribute "width" (synthesizeViewBox a))).


Definition cleanNode (bg : string) (n : Node) : Node :=
  paintForeignObjects bg
    (mapElements recolorRect
       (mapElements removeFilterAttribute
          (removeElements "filter" (removeElements "style" n)))).

Definition kept (n : Node) : bool :=
  negb (isElementNamed "style" n) && negb (isElementNamed "filter" n).

(* ------------------------------------------------------------------ *)
(** ** AcquisitionController: the component and its handlers *)

(** The host's DOM: [svgElementOf s] is
    [new DOMParser().parseFromString(s, 'image/svg+xml').querySelector('svg')],
    [svgElementOfHtml] the same for ['text/html'], and [outerHTML] the
    serialiser. *)
Class DomApi : Type := {
  svgElementOf : string -> option Node;
  svgElementOfHtml : string -> option Node;
  outerHTML : Node -> string
}.

(** The options of [IMConfig] that the pipeline reads.  A missing option
    is [None]. *)
Record Config : Type := {
  sourceUrl : option string;
  svgCode : option string;
  overallBackground : string;
  autoRefreshEnabled : bool;
  refreshInterval : nat
}.

(** [config.set('svgCode', v)] *)
Definition set_svgCode (v : string) (c : Config) : Config :=
  {| sourceUrl := sourceUrl c;
     svgCode := Some v;
     overallBackground := overallBackground c;
     autoRefreshEnabled := autoRefreshEnabled c;
     refreshInterval := refreshInterval c |}.

Inductive DisplayMode : Type := inline | external.

(** The component state.  The revision with the forecast path has no
    [displayMode] and [externalUrl]; there they keep their initial values. *)
Record State : Type := {
  svgHtml : option string;
  isLoading : bool;
  error : option string;
  rawSvg : option string;
  expanded : bool;
  displayMode : DisplayMode;
  externalUrl : option string
}.

Definition initialState : State :=
  {| svgHtml := None; isLoading := false; error := None; rawSvg := None;
     expanded := false; displayMode := inline; externalUrl := None |}.

(** What [fetch] resolved with; a rejected [fetch] (network failure, abort
    after the timeout) is [None].  [json] is [None] when the body is no
    JSON and [res.json()] rejects. *)
Record Response : Type := {
  ok : bool;
  text : string;
  json : option JSON
}.

(** The call a timer makes when it fires. *)
Inductive Task : Type :=
| FetchSvgFromUrl (url : string) (attempt : nat)
| FetchSvgDirect (url : string) (attempt : nat)
| FetchFromForecastApi (originalUrl : string) (coords : Coordinates) (attempt : nat).

(** The component and what it asked of its host: [timers] are the pending
    [setTimeout]s with their delays in milliseconds, latest first;
    [settingChanges] are the configurations passed to
    [props.onSettingChange], latest first. *)
Record World : Type := {
  config : Config;
  state : State;
  timers : list (nat * Task);
  settingChanges : list Config
}.

Definition setState (f : State -> State) (w : World) : World :=
  {| config := config w; state := f (state w);
     timers := timers w; settingChanges := settingChanges w |}.

Definition setTimeout (task : Task) (delay : nat) (w : World) : World :=
  {| config := config w; state := state w;
     timers := (delay, task) :: timers w; settingChanges := settingChanges w |}.

Definition onSettingChange (c : Config) (w : World) : World :=
  {| config := config w; state := state w;
     timers := timers w; settingChanges := c :: settingChanges w |}.

Definition processSvg `{DomApi} (svgCode : string) (w : World) : World :=
  match svgElementOf svgCode with
  | None =>
      setState (fun s =>
        {| svgHtml := svgHtml s; isLoading := false;
           error := Some "Invalid SVG content"; rawSvg := rawSvg s;
           expanded := expanded s; displayMode := displayMode s;
           externalUrl := externalUrl s |}) w
  | Some svg =>
      setState (fun s =>
        {| svgHtml := Some (outerHTML (sanitizeSvg (overallBackground (config w)) svg));
           isLoading := false; error := None; rawSvg := Some svgCode;
           expanded := expanded s; displayMode := inline;
           externalUrl := None |}) w
  end.

(** [this.state.rawSvg || this.props.config.svgCode] *)
Definition fallbackOf (w : World) : option string :=
  match rawSvg (state w) with
  | Some s => if nonEmpty s then Some s else svgCode (config w)
  | None => svgCode (config w)
  end.

(** [fallback && fallback.trim().startsWith('<svg')] *)
Definition usableFallback (w : World) : option string :=
  match fallbackOf w with
  | Some f => if nonEmpty f && startsWith "<svg" (trim f) then Some f else None
  | None => None
  end.

(** The first two [then] callbacks of the direct fetch: the SVG text, or
    [None] when one of them throws or [fetch] rejected. *)
Definition fetchedSvg `{DomApi} (answer : option Response) : option string :=
  match answer with
  | None => None
  | Some r =>
      if ok r then
        let t := trim (text r) in
        if startsWith "<svg" t || startsWith "<?xml" t then Some t
        else option_map outerHTML (svgElementOfHtml t)
      else None
  end.

(** [processSvg(svgString)] and the write-back of the direct path. *)
Definition acceptSvg `{DomApi} (svgString : string) (w : World) : World :=
  let w := processSvg svgString w in
  if startsWith "<svg" svgString
  then onSettingChange (set_svgCode svgString (config w)) w
  else w.

(** The host's part of the forecast path: [chartMarkup] is the text of the
    chart's [svg] element, which the template builds with [toFixed] and
    [Intl.DateTimeFormat]; [now] is [new Date().toISOString()]. *)
Class ForecastHost : Type := {
  chartMarkup : Config -> ForecastPayload -> string;
  now : string
}.

Definition quoted (s : string) : string := String dquote (s ++ String dquote EmptyString).

Definition xmlDeclaration : string :=
  "<?xml version=" ++ quoted "1.0" ++ " encoding=" ++ quoted "UTF-8" ++ "?>".

(** The document starts with the XML declaration and a line break. *)
Definition generateForecastSvg `{ForecastHost} (c : Config) (forecast : ForecastPayload) : string :=
  xmlDeclaration ++ String newline (chartMarkup c forecast).

(** The revision of the widget with the forecast path. *)
Module ForecastWidget.
Section Handlers.
Context {dom : DomApi} {urlApi : UrlApi} {host : ForecastHost}.

Definition fetchSvgDirect (url : string) (attempt : nat)
           (answer : option Response) (w : World) : World :=
  match fetchedSvg answer with
  | Some svgString => acceptSvg svgString w
  | None =>
      if (attempt <? 5)%nat then
        setTimeout (FetchSvgDirect url (attempt + 1)) (1000 * attempt) w
      else
        match usableFallback w with
        | Some fallback => processSvg fallback w
        | None =>
            setState (fun s =>
              {| svgHtml := svgHtml s; isLoading := false;
                 error := Some "Unable to load meteogram from source.";
                 rawSvg := rawSvg s; expanded := expanded s;
                 displayMode := displayMode s; externalUrl := externalUrl s |}) w
        end
  end.

(** The [then] callbacks of the forecast fetch up to the chart: [None]
    when one of them throws or [fetch] rejected. *)
Definition forecastSvg (c : Config) (answer : option Response) : option string :=
  match answer with
  | None => None
  | Some r =>
      if ok r then
        match json r with
        | None => None
        | Some data =>
            match transformForecast now data with
            | None => None
            | Some payload =>
                match points payload with
                | [] => None
                | _ => Some (generateForecastSvg c payload)
                end
            end
        end
      else None
  end.

Definition fetchFromForecastApi (originalUrl : string) (coords : Coordinates)
           (attempt : nat) (answer : option Response) (w : World) : World :=
  match forecastSvg (config w) answer with
  | Some svg =>
      let w := processSvg svg w in
      onSettingChange (set_svgCode svg (config w)) w
  | None =>
      if (attempt <? 5)%nat then
        setTimeout (FetchFromForecastApi originalUrl coords (attempt + 1))
                   (1000 * attempt) w
      else
        match usableFallback w with
        | Some fallback => processSvg fallback w
        | None =>
            setState (fun s =>
              {| svgHtml := svgHtml s; isLoading := false;
                 error := Some "Unable to load forecast data.";
                 rawSvg := rawSvg s; expanded := expanded s;
                 displayMode := displayMode s; externalUrl := externalUrl s |}) w
        end
  end.

(** [if (attempt === 1) this.setState({ isLoading: true, error: null })] *)
Definition beginAttempt (attempt : nat) (w : World) : World :=
  if (attempt =? 1)%nat then
    setState (fun s =>
      {| svgHtml := svgHtml s; isLoading := true; error := None;
         rawSvg := rawSvg s; expanded := expanded s;
         displayMode := displayMode s; externalUrl := externalUrl s |}) w
  else w.

Definition fetchSvgFromUrl (url : string) (attempt : nat)
           (answer : option Response) (w : World) : World :=
  let w := beginAttempt attempt w in
  match extractCoordinates url with
  | Some coords => fetchFromForecastApi url coords attempt answer w
  | None => fetchSvgDirect url attempt answer w
  end.
End Handlers.
End ForecastWidget.

(** The revision of the widget with the external view. *)
Module ExternalWidget.
Section Handlers.
Context {dom : DomApi}.

(** [if (attempt === 1) this.setState({ isLoading: true, error: null,
    displayMode: 'inline', externalUrl: null })] *)
Definition beginAttempt (attempt : nat) (w : World) : World :=
  if (attempt =? 1)%nat then
    setState (fun s =>
      {| svgHtml := svgHtml s; isLoading := true; error := None;
         rawSvg := rawSvg s; expanded := expanded s;
         displayMode := inline; externalUrl := None |}) w
  else w.

(** [requestUrl] is [url] with the [nocache] parameter of this attempt. *)
Definition fetchSvgFromUrl (url : string) (attempt : nat) (requestUrl : string)
           (answer : option Response) (w : World) : World :=
  let w := beginAttempt attempt w in
  match fetchedSvg answer with
  | Some svgString => acceptSvg svgString w
  | None =>
      if (attempt <? 5)%nat then
        setTimeout (FetchSvgFromUrl url (attempt + 1)) (1000 * attempt) w
      else
        match usableFallback w with
        | Some fallback => processSvg fallback w
        | None =>
            setState (fun s =>
              {| svgHtml := svgHtml s; isLoading := false; error := None;
                 rawSvg := rawSvg s; expanded := expanded s;
                 displayMode := external; externalUrl := Some requestUrl |}) w
        end
  end.
End Handlers.
End ExternalWidget.

(** A timer fires: the task it holds runs with the answer of the network to
    its request. *)
Definition runTask `{DomApi} `{UrlApi} `{ForecastHost}
           (task : Task) (requestUrl : string) (answer : option Response)
           (w : World) : World :=
  match task with
  | FetchSvgFromUrl url attempt =>
      ExternalWidget.fetchSvgFromUrl url attempt requestUrl answer w
  | FetchSvgDirect url attempt =>
      ForecastWidget.fetchSvgDirect url attempt answer w
  | FetchFromForecastApi originalUrl coords attempt =>
      ForecastWidget.fetchFromForecastApi originalUrl coords attempt answer w
  end.

Definition clearTimers (w : World) (pending : list (nat * Task)) : World :=
  {| config := config w; state := state w;
     timers := pending; settingChanges := settingChanges w |}.

(** The host's event loop on one chain of attempts: while a timer is
    pending and the network has another answer, wait for the timer and run
    its task.  The result is the world at the end and the delays waited
    for, in the order they elapsed. *)
Fixpoint eventLoop `{DomApi} `{UrlApi} `{ForecastHost}
         (answers : list (string * option Response)) (w : World)
  : World * list nat :=
  match answers with
  | [] => (w, [])
  | (requestUrl, answer) :: rest =>
      match timers w with
      | [] => (w, [])
      | (delay, task) :: pending =>
          let '(w', waits) :=
            eventLoop rest (runTask task requestUrl answer (clearTimers w pending)) in
          (w', delay :: waits)
      end
  end.

(** The host delivers the configuration of the latest [onSettingChange] as
    the new [props.config]. *)
Definition applySettingChange (w : World) : World :=
  match settingChanges w with
  | c :: _ =>
      {| config := c; state := state w; timers := timers w;
         settingChanges := settingChanges w |}
  | [] => w
  end.

Definition attemptOf (task : Task) : nat :=
  match task with
  | FetchSvgFromUrl _ k | FetchSvgDirect _ k | FetchFromForecastApi _ _ k => k
  end.

(** The delays between the five attempts of one chain. *)
Definition backoff : list nat := [1000; 2000; 3000; 4000]%nat.

(** [Ready] with the document [doc] on display as [html]. *)
Definition Ready (doc html : string) (s : State) : Prop :=
  isLoading s = false /\ error s = None /\ displayMode s = inline
  /\ rawSvg s = Some doc /\ svgHtml s = Some html.

(** The sanitizer as a function on markup: [None] is
    [Error("Invalid SVG content")]. *)
Definition sanitize `{DomApi} (overallBackground : string) (x : string) : option string :=
  option_map (fun svg => outerHTML (sanitizeSvg overallBackground svg)) (svgElementOf x).

(* ------------------------------------------------------------------ *)
(** ** A small host for examples *)

Definition isNameChar (c : ascii) : bool :=
  negb (isSpace c || Ascii.eqb c "<" || Ascii.eqb c ">" || Ascii.eqb c "/"
        || Ascii.eqb c "=" || Ascii.eqb c dquote || Ascii.eqb c "'").

Fixpoint concatMap {A : Type} (f : A -> string) (l : list A) : string :=
  match l with
  | [] => EmptyString
  | x :: r => f x ++ concatMap f r
  end.

(** Markup of a node: attributes in double quotes, no escapes, every
    element with an end tag. *)
Fixpoint writeNode (n : Node) : string :=
  match n with
  | Text d => d
  | Element tag a cs =>
      "<" ++ tag ++ concatMap (fun kv => " " ++ fst kv ++ "=" ++ quoted (snd kv)) a
      ++ ">" ++ concatMap writeNode cs ++ "</" ++ tag ++ ">"
  end.

(** The attributes of a start tag, whether the tag closes itself, and what
    follows the tag. *)
Fixpoint readAttrs (fuel : nat) (s : string) : option (Attrs * bool * string) :=
  match fuel with
  | O => None
  | S fuel' =>
      match dropWhile isSpace s with
      | String "/"%char (String ">"%char r) => Some ([], true, r)
      | String ">"%char r => Some ([], false, r)
      | s' =>
          let k := takeWhile isNameChar s' in
          match k, drop (String.length k) s' with
          | String _ _, String "="%char (String q r) =>
              if Ascii.eqb q dquote || Ascii.eqb q "'" then
                let v := takeWhile (fun c => negb (Ascii.eqb c q)) r in
                match drop (String.length v) r with
                | String _ r' =>
                    match readAttrs fuel' r' with
                    | Some (a, closed, rest) => Some ((k, v) :: a, closed, rest)
                    | None => None
                    end
                | EmptyString => None
                end
              else None
          | _, _ => None
          end
      end
  end.

Definition endTag (name : string) (s : string) : option string :=
  if startsWith ("</" ++ name ++ ">") s
  then Some (drop (String.length name + 3) s) else None.

(** The nodes at the front of [s] up to an end tag or the end of input. *)
Fixpoint readNodes (fuel : nat) (s : string) : option (list Node * string) :=
  match fuel with
  | O => None
  | S fuel' =>
      match s with
      | EmptyString => Some ([], s)
      | String "<"%char (String "/"%char _) => Some ([], s)
      | String "<"%char r =>
          let name := takeWhile isNameChar r in
          match name, readAttrs fuel' (drop (String.length name) r) with
          | String _ _, Some (a, true, rest) =>
              match readNodes fuel' rest with
              | Some (siblings, rest') => Some (Element name a [] :: siblings, rest')
              | None => None
              end
          | String _ _, Some (a, false, rest) =>
              match readNodes fuel' rest with
              | Some (kids, rest1) =>
                  match endTag name rest1 with
                  | Some rest2 =>
                      match readNodes fuel' rest2 with
                      | Some (siblings, rest3) =>
                          Some (Element name a kids :: siblings, rest3)
                      | None => None
                      end
                  | None => None
                  end
              | None => None
              end
          | _, _ => None
          end
      | _ =>
          let t := takeWhile (fun c => negb (Ascii.eqb c "<")) s in
          match readNodes fuel' (drop (String.length t) s) with
          | Some (siblings, rest) => Some (Text t :: siblings, rest)
          | None => None
          end
      end
  end.

(** [querySelector('svg')] among [l] and the nodes below, in document
    order. *)
Fixpoint firstSvg (n : Node) : option Node :=
  match n with
  | Text _ => None
  | Element tag a cs =>
      if String.eqb tag "svg" then Some n
      else (fix among (l : list Node) : option Node :=
              match l with
              | [] => None
              | c :: r => match firstSvg c with Some e => Some e | None => among r end
              end) cs
  end.

Fixpoint afterDeclaration (s : string) : string :=
  match s with
  | String "?"%char (String ">"%char r) => r
  | String _ r => afterDeclaration r
  | EmptyString => EmptyString
  end.

(** An XML document: an optional declaration and one element. *)
Definition readSvgDocument (s : string) : option Node :=
  let body := if startsWith "<?xml" s then afterDeclaration s else s in
  match readNodes (S (String.length body)) (dropWhile isSpace body) with
  | Some ([root], EmptyString) => firstSvg root
  | Some ([root; Text t], EmptyString) =>
      if nonEmpty (dropWhile isSpace t) then None else firstSvg root
  | _ => None
  end.

(** An HTML document: the first [svg] element that can be read in the
    text. *)
Fixpoint readSvgInHtml (s : string) : option Node :=
  match (if startsWith "<svg" s then readNodes (S (String.length s)) s else None) with
  | Some (Element tag a cs :: _, _) => Some (Element tag a cs)
  | _ => match s with
         | String _ r => readSvgInHtml r
         | EmptyString => None
         end
  end.

Definition simpleDom : DomApi :=
  {| svgElementOf := readSvgDocument;
     svgElementOfHtml := readSvgInHtml;
     outerHTML := writeNode |}.

(** A chart host that draws nothing inside the [svg] element. *)
Definition emptyChart : ForecastHost :=
  {| chartMarkup := fun _ _ => "<svg></svg>"; now := "2024-01-01T00:00:00.000Z" |}.

(** Worlds, answers and forecasts for examples. *)
Definition exampleUrl : string := "https://x/y/60.10,10.75/z".
Definition plainUrl : string := "https://x/meteogram.svg".

Definition exampleConfig : Config :=
  {| sourceUrl := Some exampleUrl; svgCode := None; overallBackground := "#fff";
     autoRefreshEnabled := false; refreshInterval := 0 |}.

Definition exampleWorld : World :=
  {| config := exampleConfig; state := initialState; timers := [];
     settingChanges := [] |}.

(** A world that shows the document [doc] it retained. *)
Definition showing (doc html : string) : World :=
  {| config := exampleConfig;
     state := {| svgHtml := Some html; isLoading := false; error := None;
                 rawSvg := Some doc; expanded := false; displayMode := inline;
                 externalUrl := None |};
     timers := []; settingChanges := [] |}.

Definition respond (body : string) (data : option JSON) : option Response :=
  Some {| ok := true; text := body; json := data |}.

Definition exampleEntry (t : string) (readings more : list (string * JSON)) : JSON :=
  JObject [("time", JString t);
           ("data", JObject (("instant", JObject [("details", JObject readings)]) :: more))].

Definition exampleData (entries : list JSON) : JSON :=
  JObject [("properties", JObject [("timeseries", JArray entries)])].

Definition goodEntry : JSON :=
  exampleEntry "2024-01-01T00:00:00Z"
    [("air_temperature", JNumber 10); ("wind_speed", JNumber 3)] [].

Definition noTemperatureEntry : JSON :=
  exampleEntry "2024-01-01T01:00:00Z" [("wind_speed", JNumber 3)] [].

Definition sixHourEntry : JSON :=
  exampleEntry "2024-01-01T02:00:00Z"
    [("air_temperature", JNumber 11); ("wind_speed", JNumber 4)]
    [("next_6_hours",
      JObject [("details", JObject [("precipitation_amount", JNumber 12)])])].

Definition xmlDocument : string := xmlDeclaration ++ "<svg></svg>".

Definition fourFailures : list (string * option Response) :=
  [(plainUrl, None); (plainUrl, None); (plainUrl, None); (plainUrl, None)].

(** *** Vocabulary of further properties of the sanitizer *)

(** No embedded styling: the element is no [style] and no [filter], and
    refers to no filter. *)
Definition stylingFree (tag : string) (a : Attrs) (cs : list Node) : bool :=
  negb (String.eqb tag "style") && negb (String.eqb tag "filter")
  && negb (hasAttribute "filter" a).

(** No white plate: the element is no [rect] whose [fill] attribute is a
    white value. *)
Definition noWhiteFill (tag : string) (a : Attrs) (cs : list Node) : bool :=
  negb (String.eqb tag "rect" && isWhite (getAttribute "fill" a)).

(** A [foreignObject] without an element child. *)
Definition foreignObjectEmpty (tag : string) (a : Attrs) (cs : list Node) : bool :=
  negb (String.eqb tag "foreignObject") || negb (existsb isElement cs).

(** The root attributes that [processSvg] reads or writes. *)
Definition scalingAttribute (name : string) : bool :=
  String.eqb name "viewBox" || String.eqb name "width" || String.eqb name "height"
  || String.eqb name "preserveAspectRatio".

(** *** The bars and the ticks of [generateForecastSvg] *)

(** The geometry of one [rect] of [precipBars]. *)
Record Bar : Type := { bar_x : Q; bar_y : Q; bar_width : Q; bar_height : Q }.

(** The callback of [pts.map((p, i) => ...)] that builds [precipBars]:
    [None] is the empty string of a point without precipitation. *)
Definition precipBar (pts : list ForecastPoint) (i : nat) (p : ForecastPoint)
  : option Bar :=
  let value := match precipitation p with Some v => v | None => 0 end in
  if Qle_bool value 0 then None
  else
    let barHeight := qmax 2 (Chart.precipHeight pts value) in
    let x := Chart.xPos pts i - qmax 2 (Chart.xStep pts * (35 # 100)) in
    let barWidth := qmax 4 (Chart.xStep pts * (7 # 10)) in
    let y := Chart.precipBase - barHeight in
    Some {| bar_x := x; bar_y := y; bar_width := barWidth; bar_height := barHeight |}.

Definition precipBars (pts : list ForecastPoint) : list (option Bar) :=
  map (fun ip => precipBar pts (fst ip) (snd ip)) (combine (seq 0 (List.length pts)) pts).

(** [for (let val = start; val <= limit; val += step) ticks.push(val)],
    cut off after [fuel] rounds. *)
Fixpoint countUp (fuel : nat) (val step limit : Q) : list Q :=
  match fuel with
  | O => []
  | S fuel' =>
      if Qle_bool val limit then val :: countUp fuel' (val + step) step limit
      else []
  end.

(** Rounds after which the loop has left by its own test, for a positive
    step. *)
Definition loopFuel (start step limit : Q) : nat :=
  Z.to_nat (Qfloor ((limit - start) / step) + 2).

Definition Math_ceil (q : Q) : Q := inject_Z (Qceiling q).

Definition tempStep (pts : list ForecastPoint) : Q :=
  if Qle_bool (Chart.tempRange pts) 10 then 1
  else if Qle_bool (Chart.tempRange pts) 20 then 2 else 5.

Definition tempTicks (pts : list ForecastPoint) : list Q :=
  let step := tempStep pts in
  let start := Math_ceil (Chart.tempMin pts / step) * step in
  countUp (loopFuel start step (Chart.tempMax pts)) start step (Chart.tempMax pts).

Definition windStep (pts : list ForecastPoint) : Q :=
  if Qle_bool (Chart.windMax pts) 10 then 2
  else if Qle_bool (Chart.windMax pts) 20 then 5 else 10.

(** The values [val] of the loop that fills [windTicks]; each of them
    pushes one grid line and one label. *)
Definition windTicks (pts : list ForecastPoint) : list Q :=
  countUp (loopFuel 0 (windStep pts) (Chart.windMax pts)) 0 (windStep pts)
          (Chart.windMax pts).

Definition examplePoint (temp wind : Q) (gust rain : option Q) : ForecastPoint :=
  {| time := JString "2024-01-01T00:00:00Z"; temperature := temp; windSpeed := wind;
     windGust := gust; precipitation := rain |}.

(** *** What [render] shows *)

(** The alternatives of [content] in [render]. *)
Inductive View : Type :=
| LoadingView
| ErrorView (message : string) (refreshButton : bool)
| ExternalView (src : string)
| InlineView (html : string)
| Placeholder.

(** A string that JavaScript takes for true: present and not empty. *)
Definition truthyString (o : option string) : option string :=
  match o with
  | Some s => if nonEmpty s then Some s else None
  | None => None
  end.

(** [content] of [render].  The revision with the forecast path has no
    external view; its [displayMode] is never [external]. *)
Definition content (c : Config) (s : State) : View :=
  if isLoading s then LoadingView
  else
    match truthyString (error s) with
    | Some message => ErrorView message (isSome (truthyString (sourceUrl c)))
    | None =>
        match displayMode s, truthyString (externalUrl s) with
        | external, Some src => ExternalView src
        | _, _ =>
            match truthyString (svgHtml s) with
            | Some html => InlineView html
            | None => Placeholder
            end
        end
    end.

(** [showControls] of [render] *)
Definition showControls (c : Config) (s : State) : bool :=
  isSome (truthyString (sourceUrl c)) && negb (expanded s)
  && negb (isSome (truthyString (error s))).

Definition pendingRetry (w : World) : bool :=
  match timers w with [] => false | _ :: _ => true end.

(** *** The life cycle of the component *)

(** The two revisions of the file. *)
Inductive Revision : Type := forecastRevision | externalViewRevision.

(** The component with its auto-refresh: [refreshIntervalId] is the field
    of the class, [intervals] are the intervals that run on the host, each
    with its id and its period in milliseconds, and [issuedIds] counts the
    ids the host has handed out (ids start at 1). *)
Record Component : Type := {
  world : World;
  refreshIntervalId : option nat;
  intervals : list (nat * nat);
  issuedIds : nat
}.

Definition withWorld (w : World) (c : Component) : Component :=
  {| world := w; refreshIntervalId := refreshIntervalId c;
     intervals := intervals c; issuedIds := issuedIds c |}.

Definition clearInterval (id : nat) (c : Component) : Component :=
  {| world := world c; refreshIntervalId := refreshIntervalId c;
     intervals := filter (fun e => negb (fst e =? id)%nat) (intervals c);
     issuedIds := issuedIds c |}.

(** [this.refreshIntervalId = setInterval(callback, ms)] *)
Definition setInterval (ms : nat) (c : Component) : Component :=
  {| world := world c; refreshIntervalId := Some (S (issuedIds c));
     intervals := (S (issuedIds c), ms) :: intervals c;
     issuedIds := S (issuedIds c) |}.

(** [if (this.refreshIntervalId) clearInterval(this.refreshIntervalId)] *)
Definition clearRefresh (c : Component) : Component :=
  match refreshIntervalId c with
  | Some id => clearInterval id c
  | None => c
  end.

Definition setupAutoRefresh (c : Component) : Component :=
  let c := clearRefresh c in
  let cfg := config (world c) in
  if autoRefreshEnabled cfg && (0 <? refreshInterval cfg)%nat
     && isSome (truthyString (sourceUrl cfg))
  then setInterval (refreshInterval cfg * 60 * 1000) c
  else c.

Definition componentWillUnmount (c : Component) : Component := clearRefresh c.

Definition optionString_eqb (a b : option string) : bool :=
  match a, b with
  | Some x, Some y => String.eqb x y
  | None, None => true
  | _, _ => false
  end.

(** [fetchRelevantChanged] of [componentDidUpdate] *)
Definition fetchRelevantChanged (cfg prev : Config) : bool :=
  negb (optionString_eqb (sourceUrl cfg) (sourceUrl prev))
  || negb (Bool.eqb (autoRefreshEnabled cfg) (autoRefreshEnabled prev))
  || negb (refreshInterval cfg =? refreshInterval prev)%nat.

Definition withConfig (cfg : Config) (w : World) : World :=
  {| config := cfg; state := state w; timers := timers w;
     settingChanges := settingChanges w |}.

Section Lifecycle.
Context {dom : DomApi} {urlApi : UrlApi} {host : ForecastHost}.
Variable revision : Revision.

(** [this.fetchSvgFromUrl(url)] of the revision, with the answer of the
    network to its first request. *)
Definition fetchSvgFromUrl (url requestUrl : string) (answer : option Response)
           (w : World) : World :=
  match revision with
  | forecastRevision => ForecastWidget.fetchSvgFromUrl url 1 answer w
  | externalViewRevision => ExternalWidget.fetchSvgFromUrl url 1 requestUrl answer w
  end.

(** The [setState] of the last branch of [handleDataSourceChange]; the
    revision with the forecast path has no display mode to reset. *)
Definition resetDocument (w : World) : World :=
  setState (fun s =>
    {| svgHtml := None; isLoading := false; error := None; rawSvg := None;
       expanded := expanded s;
       displayMode := match revision with
                      | forecastRevision => displayMode s
                      | externalViewRevision => inline
                      end;
       externalUrl := match revision with
                      | forecastRevision => externalUrl s
                      | externalViewRevision => None
                      end |}) w.

Definition handleDataSourceChange (requestUrl : string) (answer : option Response)
           (w : World) : World :=
  match truthyString (sourceUrl (config w)) with
  | Some url => fetchSvgFromUrl url requestUrl answer w
  | None =>
      match truthyString (svgCode (config w)) with
      | Some code =>
          if negb (startsWith "<!--" (trim code)) then processSvg code w
          else resetDocument w
      | None => resetDocument w
      end
  end.

Definition componentDidMount (requestUrl : string) (answer : option Response)
           (c : Component) : Component :=
  setupAutoRefresh (withWorld (handleDataSourceChange requestUrl answer (world c)) c).

(** [componentDidUpdate(prevProps)]: [prev] is [prevProps.config] and
    [replaced] tells whether [cfg !== prev], that is whether the host
    handed a new configuration object. *)
Definition componentDidUpdate (prev : Config) (replaced : bool)
           (requestUrl : string) (answer : option Response) (c : Component)
  : Component :=
  if fetchRelevantChanged (config (world c)) prev then
    setupAutoRefresh (withWorld (handleDataSourceChange requestUrl answer (world c)) c)
  else if replaced then
    match truthyString (rawSvg (state (world c))) with
    | Some raw => withWorld (processSvg raw (world c)) c
    | None => c
    end
  else c.

(** What happens to a mounted component: the host hands new props (with a
    new configuration object or with the one it has), a retry timer fires,
    the refresh interval fires (its callback is
    [() => this.fetchSvgFromUrl(this.props.config.sourceUrl)]; with no
    interval running, or no [sourceUrl] to pass, nothing is modelled to
    happen), the component is unmounted. *)
Inductive LifecycleEvent : Type :=
| PropsChange (newConfig : option Config) (requestUrl : string)
              (answer : option Response)
| RetryFires (requestUrl : string) (answer : option Response)
| RefreshFires (requestUrl : string) (answer : option Response)
| Unmount.

Definition lifecycleStep (c : Component) (e : LifecycleEvent) : Component :=
  match e with
  | PropsChange (Some cfg) requestUrl answer =>
      componentDidUpdate (config (world c)) true requestUrl answer
        (withWorld (withConfig cfg (world c)) c)
  | PropsChange None requestUrl answer =>
      componentDidUpdate (config (world c)) false requestUrl answer c
  | RetryFires requestUrl answer =>
      match timers (world c) with
      | (_, task) :: pending =>
          withWorld (runTask task requestUrl answer (clearTimers (world c) pending)) c
      | [] => c
      end
  | RefreshFires requestUrl answer =>
      match intervals c, sourceUrl (config (world c)) with
      | _ :: _, Some url =>
          withWorld (fetchSvgFromUrl url requestUrl answer (world c)) c
      | _, _ => c
      end
  | Unmount => componentWillUnmount c
  end.

(** The component after its constructor and [componentDidMount]. *)
Definition mounted (cfg : Config) (requestUrl : string) (answer : option Response)
  : Component :=
  componentDidMount requestUrl answer
    {| world := {| config := cfg; state := initialState; timers := [];
                   settingChanges := [] |};
       refreshIntervalId := None; intervals := []; issuedIds := 0 |}.
End Lifecycle.

(** The intervals that run are the component's own: none, or the one it
    holds. *)
Definition ownsIntervals (c : Component) : Prop :=
  intervals c = []
  \/ exists id ms, refreshIntervalId c = Some id /\ intervals c = [(id, ms)].

(** The refresh timer agrees with the configuration: no interval runs, or
    exactly one, the one the component holds, with the period of the
    configured minutes, and the configuration asks for it. *)
Definition refreshConsistent (c : Component) : Prop :=
  match intervals c with
  | [] => True
  | [(id, ms)] =>
      let cfg := config (world c) in
      refreshIntervalId c = Some id
      /\ ms = (refreshInterval cfg * 60 * 1000)%nat
      /\ autoRefreshEnabled cfg = true /\ (0 < refreshInterval cfg)%nat
      /\ isSome (truthyString (sourceUrl cfg)) = true
  | _ => False
  end.

(** One step of the event loop on a chain of attempts. *)
Ltac next_attempt :=
  cbn [eventLoop timers setTimeout clearTimers runTask config Nat.add
       ForecastWidget.beginAttempt ExternalWidget.beginAttempt setState Nat.eqb].

(* ================================================================== *)
(** * Properties *)

(* ------------------------------------------------------------------ *)
(** ** CoordinateExtractor *)

Lemma isDigit_cases c :
  isDigit c = true ->
  isSpace c = false /\ Ascii.eqb c "-" = false /\ Ascii.eqb c "+" = false
  /\ Ascii.eqb c "." = false /\ Ascii.eqb c "," = false /\ Ascii.eqb "I" c = false
  /\ Ascii.eqb "." c = false /\ Ascii.eqb "," c = false /\ Ascii.eqb "-" c = false.
Proof.
  destruct c as [[] [] [] [] [] [] [] []]; vm_compute; intros H;
    try discriminate H; repeat split.
Qed.

Lemma readDigits_digits d rest acc n :
  allDigits d = true -> startsWithDigit rest = false ->
  readDigits (d ++ rest) acc n
  = ((acc * 10 ^ Z.of_nat (String.length d) + digitsValue d)%Z,
     (n + String.length d)%nat, rest).
Proof.
  intros Hd Hrest. revert acc n.
  induction d as [| c d IH]; intros acc n.
  - cbn [append String.length digitsValue Z.of_nat].
    rewrite Z.pow_0_r, Z.mul_1_r, Z.add_0_r, Nat.add_0_r.
    destruct rest as [| c r]; [reflexivity |].
    cbn [readDigits]. cbn in Hrest. now rewrite Hrest.
  - cbn [allDigits] in Hd. apply andb_true_iff in Hd as [Hc Hd].
    cbn [append readDigits]. rewrite Hc, IH by exact Hd.
    cbn [String.length digitsValue].
    rewrite Nat2Z.inj_succ, Z.pow_succ_r by lia.
    f_equal. f_equal; [ring | lia].
Qed.

Lemma dropWhile_digits d rest :
  allDigits d = true -> startsWithDigit rest = false ->
  dropWhile isDigit (d ++ rest) = rest.
Proof.
  intros Hd Hrest. induction d as [| c d IH].
  - destruct rest as [| c r]; [reflexivity |]. cbn in *. now rewrite Hrest.
  - cbn [allDigits] in Hd. apply andb_true_iff in Hd as [Hc Hd].
    cbn [append dropWhile]. rewrite Hc. auto.
Qed.

Lemma pow10_nat n : pow10 (Z.of_nat n) == inject_Z (10 ^ Z.of_nat n).
Proof.
  unfold pow10. now rewrite (Zpower_Qpower 10) by lia.
Qed.

Lemma digitString_cons d :
  digitString d = true ->
  exists c r, d = String c r /\ isDigit c = true /\ allDigits r = true.
Proof.
  unfold digitString. destruct d as [| c r]; [discriminate |].
  cbn. intros H. apply andb_true_iff in H as [Hc Hr]. eauto.
Qed.

Lemma digitString_allDigits d : digitString d = true -> allDigits d = true.
Proof. unfold digitString. intros H. now apply andb_true_iff in H. Qed.

Lemma append_assoc (a b c : string) : (a ++ b) ++ c = a ++ (b ++ c).
Proof. induction a; cbn; congruence. Qed.

Lemma trimStart_nonspace c r :
  isSpace c = false -> trimStart (String c r) = String c r.
Proof. intros H. cbn [trimStart]. now rewrite H. Qed.

Lemma readSign_unsigned c r :
  Ascii.eqb c "-" = false -> Ascii.eqb c "+" = false ->
  readSign (String c r) = (false, String c r).
Proof. intros H1 H2. unfold readSign. now rewrite H1, H2. Qed.

Lemma append_nil_r s : s ++ EmptyString = s.
Proof. induction s; cbn; congruence. Qed.

Lemma readDigits_all d acc n :
  allDigits d = true ->
  readDigits d acc n
  = ((acc * 10 ^ Z.of_nat (String.length d) + digitsValue d)%Z,
     (n + String.length d)%nat, EmptyString).
Proof.
  intros Hd. rewrite <- (append_nil_r d) at 1. now apply readDigits_digits.
Qed.

(** [parseFloat] reads a signed decimal that a non-digit follows, here the
    end of the text. *)
Lemma parseFloat_signedDecimal neg i f :
  digitString i = true -> digitString f = true ->
  exists q, parseFloat (signedDecimal neg i f) = Finite q
            /\ q == decimalValue neg i f.
Proof.
  intros Hi Hf.
  destruct (digitString_cons i Hi) as (c & i' & -> & Hc & Hi').
  destruct (isDigit_cases c Hc) as (Hsp & Hm & Hp & _ & _ & HI & _).
  pose proof (digitString_allDigits f Hf) as Hf'.
  assert (Hi2 : allDigits (String c i') = true) by (cbn; now rewrite Hc, Hi').
  set (d := String c i') in *.
  assert (Hsign : readSign (trimStart (signedDecimal neg d f))
                  = (neg, d ++ String "."%char f)).
  { unfold signedDecimal, d. destruct neg; cbn [append].
    - now rewrite trimStart_nonspace.
    - now rewrite trimStart_nonspace, readSign_unsigned. }
  unfold parseFloat. rewrite Hsign.
  assert (Hinf : startsWith "Infinity" (d ++ String "."%char f) = false)
    by (unfold d; cbn [append startsWith]; now rewrite HI).
  rewrite Hinf.
  rewrite readDigits_digits by (exact Hi2 || reflexivity).
  cbv beta iota zeta.
  rewrite readDigits_all by exact Hf'.
  cbn [Nat.add]. subst d. cbn [String.length].
  eexists. split; [reflexivity |].
  unfold decimalValue.
  change (pow10 (readExponent "")) with 1.
  rewrite !Z.mul_0_l, !Z.add_0_l.
  destruct neg; rewrite pow10_nat; ring.
Qed.

Lemma lacks_append c a b : lacks c (a ++ b) = lacks c a && lacks c b.
Proof. induction a as [| d a IH]; cbn; [reflexivity |]. now rewrite IH, andb_assoc. Qed.

Lemma lacks_comma_digits d : allDigits d = true -> lacks "," d = true.
Proof.
  induction d as [| c d IH]; cbn; [reflexivity |].
  intros H. apply andb_true_iff in H as [Hc Hd].
  destruct (isDigit_cases c Hc) as (_ & _ & _ & _ & -> & _). cbn. auto.
Qed.

Lemma lacks_comma_signedDecimal neg i f :
  digitString i = true -> digitString f = true ->
  lacks "," (signedDecimal neg i f) = true.
Proof.
  intros Hi Hf. unfold signedDecimal.
  rewrite !lacks_append. cbn [lacks].
  rewrite (lacks_comma_digits i), (lacks_comma_digits f)
    by now apply digitString_allDigits.
  now destruct neg.
Qed.

Lemma split_whole c s : lacks c s = true -> split c s = [s].
Proof.
  induction s as [| d s IH]; cbn; [reflexivity |].
  intros H. apply andb_true_iff in H as [Hd Hs].
  apply negb_true_iff in Hd. now rewrite Hd, IH.
Qed.

Lemma split_at_first c a b :
  lacks c a = true -> split c (a ++ String c b) = a :: split c b.
Proof.
  induction a as [| d a IH]; cbn [append split lacks].
  - now rewrite Ascii.eqb_refl.
  - intros H. apply andb_true_iff in H as [Hd Ha].
    apply negb_true_iff in Hd. now rewrite Hd, IH.
Qed.

Lemma digits1_digits d rest :
  digitString d = true -> startsWithDigit rest = false ->
  digits1 (d ++ rest) = Some rest.
Proof.
  intros Hd Hrest.
  destruct (digitString_cons d Hd) as (c & r & -> & Hc & Hr).
  cbn [append digits1]. now rewrite Hc, dropWhile_digits.
Qed.

Lemma optional_minus_signedDecimal neg i f rest :
  digitString i = true ->
  optional "-" (signedDecimal neg i f ++ rest) = i ++ String "."%char (f ++ rest).
Proof.
  intros Hi. unfold signedDecimal.
  destruct (digitString_cons i Hi) as (c & r & -> & Hc & Hr).
  destruct (isDigit_cases c Hc) as (_ & _ & _ & _ & _ & _ & _ & _ & Hm).
  destruct neg; cbn [append optional].
  - change (Ascii.eqb "-" "-") with true. cbv iota.
    now rewrite append_assoc.
  - rewrite Hm. now rewrite append_assoc.
Qed.

(** A segment that is a pair of signed decimals is matched at its front. *)
Lemma coordPatternAt_pair n1 i1 f1 n2 i2 f2 :
  digitString i1 = true -> digitString f1 = true ->
  digitString i2 = true -> digitString f2 = true ->
  isSome (coordPatternAt (signedDecimal n1 i1 f1 ++ String "," (signedDecimal n2 i2 f2)))
  = true.
Proof.
  intros Hi1 Hf1 Hi2 Hf2. unfold coordPatternAt.
  rewrite optional_minus_signedDecimal by exact Hi1.
  rewrite digits1_digits by (exact Hi1 || reflexivity).
  cbn [andThen]. change (expect "." (String "." ?r)) with (Some r).
  cbn [andThen]. rewrite digits1_digits by (exact Hf1 || reflexivity).
  cbn [andThen]. change (expect "," (String "," ?r)) with (Some r).
  cbn [andThen].
  rewrite <- (append_nil_r (signedDecimal n2 i2 f2)).
  rewrite optional_minus_signedDecimal by exact Hi2.
  rewrite digits1_digits by (exact Hi2 || reflexivity).
  cbn [andThen]. change (expect "." (String "." ?r)) with (Some r).
  cbn [andThen]. rewrite append_nil_r.
  destruct (digitString_cons f2 Hf2) as (c & r & -> & Hc & Hr).
  now rewrite Hc.
Qed.

Lemma coordPattern_test_at s :
  isSome (coordPatternAt s) = true -> coordPattern_test s = true.
Proof. destruct s; cbn [coordPattern_test]; now destruct (coordPatternAt _). Qed.

Lemma find_first {A} (p : A -> bool) before x after :
  forallb (fun y => negb (p y)) before = true -> p x = true ->
  find p (before ++ x :: after)%list = Some x.
Proof.
  intros Hb Hx. induction before as [| y l IH]; cbn.
  - now rewrite Hx.
  - cbn in Hb. apply andb_true_iff in Hb as [Hy Hl].
    apply negb_true_iff in Hy. rewrite Hy. auto.
Qed.

Lemma find_none {A} (p : A -> bool) l :
  forallb (fun y => negb (p y)) l = true -> find p l = None.
Proof.
  induction l as [| y l IH]; cbn; [reflexivity |].
  intros H. apply andb_true_iff in H as [Hy Hl].
  apply negb_true_iff in Hy. rewrite Hy. auto.
Qed.




(** Claim C9, as amended.  Every [Coordinates] value that
    [extractCoordinates] returns has a finite [lat] and a finite [lon]; the
    function checks no range. *)
Theorem extractCoordinates_finite {urlApi : UrlApi} (url : string) (c : Coordinates) :
  extractCoordinates url = Some c ->
  Number_isFinite (lat c) = true /\ Number_isFinite (lon c) = true.
Proof.
  unfold extractCoordinates.
  destruct (URL_pathname url) as [p |]; [| discriminate].
  destruct (find coordPattern_test (pathSegments p)) as [seg |]; [| discriminate].
  destruct (Number_isFinite _ && Number_isFinite _) eqn:E; [| discriminate].
  intros [= <-]. cbn [lat lon]. now apply andb_true_iff in E.
Qed.

(** The coordinates of the example URL are finite. *)
Lemma extractCoordinates_finite_witness :
  exists c, @extractCoordinates simpleUrl exampleUrl = Some c
            /\ Number_isFinite (lat c) = true /\ Number_isFinite (lon c) = true.
Proof.
  eexists. split.
  - vm_compute. reflexivity.
  - apply (@extractCoordinates_finite simpleUrl exampleUrl). vm_compute. reflexivity.
Defined.

(** Claim C9 fails as stated: the segment [100.5,200.5] yields a latitude
    above 90 and a longitude above 180. *)
Lemma extractCoordinates_out_of_bounds :
  exists c, @extractCoordinates simpleUrl "https://x/y/100.5,200.5/z" = Some c
            /\ ~ withinBounds c.
Proof.
  eexists. split; [vm_compute; reflexivity |].
  unfold withinBounds. cbn [lat lon]. intros [[_ H] _]. revert H.
  vm_compute. intros H. apply H. reflexivity.
Qed.

(* ------------------------------------------------------------------ *)
(** ** ForecastTransformer *)

Lemma getProp_orElse_object v name :
  Some (orElse v (JObject [])) ?. name = v ?. name.
Proof. destruct v as [[] |]; reflexivity. Qed.

Lemma getProp_orElse_null v name : Some (orElse v JNull) ?. name = v ?. name.
Proof. destruct v as [[] |]; reflexivity. Qed.

Lemma transformEntry_append acc entry :
  transformEntry acc entry = (acc ++ transformEntry [] entry)%list.
Proof.
  unfold transformEntry.
  destruct (Some entry ?. "time") as [t |]; [| now rewrite app_nil_r].
  destruct (truthy (Some t)); [| now rewrite app_nil_r].
  destruct (asNumber _); [| now rewrite app_nil_r].
  destruct (asNumber _); [| now rewrite app_nil_r].
  reflexivity.
Qed.

Lemma fold_transformEntry l : forall acc,
  fold_left transformEntry l acc = (acc ++ flat_map (transformEntry []) l)%list.
Proof.
  induction l as [| e l IH]; intros acc; cbn [fold_left flat_map].
  - now rewrite app_nil_r.
  - rewrite IH, (transformEntry_append acc e). now rewrite app_assoc.
Qed.

(** What the loop body makes of one entry. *)
Lemma transformEntry_one entry :
  if usable entry
  then exists p, transformEntry [] entry = [p] /\ describes entry p /\ resolves entry p
  else transformEntry [] entry = [].
Proof.
  unfold usable, transformEntry, describes, resolves, gustOf, precipitationOf, detailsOf.
  cbv zeta. rewrite !getProp_orElse_object, !getProp_orElse_null.
  destruct (Some entry ?. "time") as [t |] eqn:Et; [| reflexivity].
  destruct (truthy (Some t)); [| reflexivity].
  destruct (asNumber (Some entry ?. "data" ?. "instant" ?. "details" ?. "air_temperature"))
    as [temp |]; [| reflexivity].
  destruct (asNumber (Some entry ?. "data" ?. "instant" ?. "details" ?. "wind_speed"))
    as [wind |]; [| reflexivity].
  cbn [andb isSome app]. eexists. split; [reflexivity |].
  cbn [time temperature windSpeed windGust precipitation].
  repeat split.
  - unfold firstSome. now repeat destruct (asNumber _).
  - unfold firstSome. now repeat destruct (asNumber _).
Qed.

Lemma transformForecast_loop now data :
  pointsOf (transformForecast now data)
  = flat_map (transformEntry []) (firstn 48 (seriesOf data)).
Proof.
  unfold transformForecast, seriesOf.
  destruct (match Some data ?. "properties" ?. "timeseries" with
            | Some (JArray items) => items | _ => [] end) as [| e l] eqn:Es.
  - reflexivity.
  - rewrite fold_transformEntry. cbn [app].
    now destruct (flat_map _ _).
Qed.

Lemma flat_map_usable (R : JSON -> ForecastPoint -> Prop) l :
  (forall e p, transformEntry [] e = [p] -> usable e = true -> R e p) ->
  Forall2 R (filter usable l) (flat_map (transformEntry []) l).
Proof.
  intros HR. induction l as [| e l IH]; cbn [filter flat_map]; [constructor |].
  pose proof (transformEntry_one e) as He.
  destruct (usable e) eqn:Eu.
  - destruct He as (p & Hp & _). rewrite Hp. cbn [app]. constructor; auto.
  - now rewrite He.
Qed.

Lemma flat_map_drop before entry after :
  usable entry = false ->
  flat_map (transformEntry []) (before ++ entry :: after)
  = flat_map (transformEntry []) (before ++ after).
Proof.
  intros Hu. rewrite !flat_map_app. cbn [flat_map].
  pose proof (transformEntry_one entry) as He. rewrite Hu in He. now rewrite He.
Qed.

Lemma length_flat_map_usable l :
  forallb usable l = true ->
  List.length (flat_map (transformEntry []) l) = List.length l.
Proof.
  induction l as [| e l IH]; cbn [forallb flat_map]; [reflexivity |].
  intros H. apply andb_true_iff in H as [He Hl].
  pose proof (transformEntry_one e) as Hone. rewrite He in Hone.
  destruct Hone as (p & -> & _). cbn. now rewrite IH.
Qed.

Lemma forallb_firstn {A} (p : A -> bool) n l :
  forallb p l = true -> forallb p (firstn n l) = true.
Proof.
  revert l. induction n as [| n IH]; intros [| x l]; cbn; auto.
  intros H. apply andb_true_iff in H as [-> Hl]. cbn. auto.
Qed.

(** Claim C4.  [transformForecast] reads the first 48 entries of
    [properties.timeseries] only, and its points are, in input order, the
    entries among them that have a timestamp and numeric [air_temperature]
    and [wind_speed], each point with the timestamp and the readings of its
    entry.  Sixty usable entries give exactly 48 points.  An entry without a
    numeric [air_temperature] is dropped: the points are those of the input
    without that entry. *)
Theorem transformForecast_subsequence now data :
  let window := firstn 48 (seriesOf data) in
  let pts := pointsOf (transformForecast now data) in
  Forall2 describes (filter usable window) pts
  /\ (List.length (seriesOf data) = 60%nat -> forallb usable (seriesOf data) = true ->
      List.length pts = 48%nat)
  /\ (forall before entry after,
        window = (before ++ entry :: after)%list ->
        asNumber (detailsOf entry "instant" "air_temperature") = None ->
        forall now' data',
          firstn 48 (seriesOf data') = (before ++ after)%list ->
          pts = pointsOf (transformForecast now' data')).
Proof.
  intros window pts. subst pts. rewrite transformForecast_loop. fold window.
  split; [| split].
  - apply flat_map_usable. intros e p Hp Hu.
    pose proof (transformEntry_one e) as He. rewrite Hu in He.
    destruct He as (p' & Hp' & Hd & _). congruence.
  - intros Hlen Hall. rewrite length_flat_map_usable.
    + unfold window. rewrite length_firstn. lia.
    + now apply forallb_firstn.
  - intros before entry after Hw Hmissing now' data' Hw'.
    rewrite transformForecast_loop, Hw, Hw'.
    apply flat_map_drop. unfold usable. rewrite Hmissing.
    now rewrite andb_false_r.
Qed.

(** Sixty entries give 48 points; an entry without temperature between two
    usable entries leaves their points as they are. *)
Lemma transformForecast_subsequence_witness :
  List.length (pointsOf (transformForecast "now" (exampleData (repeat goodEntry 60))))
  = 48%nat
  /\ pointsOf (transformForecast "now"
                 (exampleData [goodEntry; noTemperatureEntry; sixHourEntry]))
     = pointsOf (transformForecast "now" (exampleData [goodEntry; sixHourEntry])).
Proof.
  split.
  - destruct (transformForecast_subsequence "now" (exampleData (repeat goodEntry 60)))
      as (_ & Hsixty & _).
    apply Hsixty; vm_compute; reflexivity.
  - destruct (transformForecast_subsequence "now"
                (exampleData [goodEntry; noTemperatureEntry; sixHourEntry]))
      as (_ & _ & Hdrop).
    apply (Hdrop [goodEntry] noTemperatureEntry [sixHourEntry]);
      vm_compute; reflexivity.
Defined.

(** Claim C5.  For every entry that [transformForecast] retains, the
    point's [windGust] is the instantaneous [wind_speed_of_gust], else the
    one of [next_1_hours], else the one of [next_6_hours], else absent, and
    its [precipitation] is the [precipitation_amount] of [next_1_hours], else
    a sixth of the one of [next_6_hours], else absent.  An entry with
    [next_6_hours.precipitation_amount] 12 and no [next_1_hours] has
    precipitation 2. *)
Theorem transformForecast_resolution now data :
  Forall2
    (fun entry p =>
       resolves entry p
       /\ (forall amount,
             asNumber (detailsOf entry "next_6_hours" "precipitation_amount") = Some amount ->
             amount == 12 ->
             Some entry ?. "data" ?. "next_1_hours" = None ->
             exists v, precipitation p = Some v /\ v == 2))
    (filter usable (firstn 48 (seriesOf data)))
    (pointsOf (transformForecast now data)).
Proof.
  rewrite transformForecast_loop. apply flat_map_usable. intros e p Hp Hu.
  pose proof (transformEntry_one e) as He. rewrite Hu in He.
  destruct He as (p' & Hp' & _ & Hres).
  assert (p' = p) by congruence. subst p'. split; [exact Hres |].
  intros amount H6 H12 H1. destruct Hres as [_ Hprec].
  unfold precipitationOf, detailsOf in Hprec. unfold detailsOf in H6.
  rewrite H1, H6 in Hprec. cbn in Hprec.
  exists (amount / 6). split; [exact Hprec |]. rewrite H12. reflexivity.
Qed.

(** The entry with twelve millimetres in six hours yields two. *)
Lemma transformForecast_resolution_witness :
  exists p v,
    pointsOf (transformForecast "now" (exampleData [sixHourEntry])) = [p]
    /\ precipitation p = Some v /\ v == 2.
Proof.
  pose proof (transformForecast_resolution "now" (exampleData [sixHourEntry])) as H.
  remember (pointsOf (transformForecast "now" (exampleData [sixHourEntry]))) as pts eqn:Epts.
  change (filter usable (firstn 48 (seriesOf (exampleData [sixHourEntry]))))
    with [sixHourEntry] in H.
  inversion H as [| e p l l' [_ Hsix] Hrest]; subst.
  inversion Hrest; subst.
  destruct (Hsix 12) as (v & Hv & Htwo); try reflexivity.
  exists p, v. repeat split; assumption.
Defined.


(* ------------------------------------------------------------------ *)
(** ** ChartRenderer *)

Lemma qmax_l a b : a <= qmax a b.
Proof.
  unfold qmax. destruct (Qle_bool a b) eqn:E.
  - now apply Qle_bool_iff.
  - apply Qle_refl.
Qed.

Lemma qmax_r a b : b <= qmax a b.
Proof.
  unfold qmax. destruct (Qle_bool a b) eqn:E.
  - apply Qle_refl.
  - apply Qlt_le_weak, Qnot_le_lt. intros Hle.
    apply Qle_bool_iff in Hle. congruence.
Qed.

Lemma qmin_l a b : qmin a b <= a.
Proof.
  unfold qmin. destruct (Qle_bool a b) eqn:E.
  - apply Qle_refl.
  - apply Qlt_le_weak, Qnot_le_lt. intros Hle.
    apply Qle_bool_iff in Hle. congruence.
Qed.

Lemma qmin_r a b : qmin a b <= b.
Proof.
  unfold qmin. destruct (Qle_bool a b) eqn:E.
  - now apply Qle_bool_iff.
  - apply Qle_refl.
Qed.

Lemma Math_max_bound xs d : d <= Math_max xs d /\ forall x, In x xs -> x <= Math_max xs d.
Proof.
  induction xs as [| y xs [IHd IHx]]; cbn [Math_max fold_right].
  - split; [apply Qle_refl | intros x []].
  - fold (Math_max xs d). split.
    + eapply Qle_trans; [exact IHd | apply qmax_r].
    + intros x [<- | Hx]; [apply qmax_l |].
      eapply Qle_trans; [apply IHx, Hx | apply qmax_r].
Qed.

Lemma Math_min_bound xs d : Math_min xs d <= d /\ forall x, In x xs -> Math_min xs d <= x.
Proof.
  induction xs as [| y xs [IHd IHx]]; cbn [Math_min fold_right].
  - split; [apply Qle_refl | intros x []].
  - fold (Math_min xs d). split.
    + eapply Qle_trans; [apply qmin_r | exact IHd].
    + intros x [<- | Hx]; [apply qmin_l |].
      eapply Qle_trans; [apply qmin_r | apply IHx, Hx].
Qed.



(* ------------------------------------------------------------------ *)
(** ** SvgSanitizer *)

Lemma Node_induction (P : Node -> Prop) :
  (forall d, P (Text d)) ->
  (forall tag a cs, Forall P cs -> P (Element tag a cs)) ->
  forall n, P n.
Proof.
  intros HT HE.
  fix IH 1.
  intros [d | tag a cs].
  - apply HT.
  - apply HE. induction cs as [| c cs IHcs]; constructor.
    + apply IH.
    + exact IHcs.
Qed.

Lemma map_id_Forall {A} (f : A -> A) (l : list A) :
  Forall (fun x => f x = x) l -> map f l = l.
Proof. induction 1; simpl; congruence. Qed.

Lemma filter_all_true {A} (p : A -> bool) (l : list A) :
  forallb p l = true -> filter p l = l.
Proof.
  induction l as [| x l IH]; simpl; intros Hl; [reflexivity |].
  apply andb_true_iff in Hl as [Hx Hl]. rewrite Hx, IH; auto.
Qed.

(** *** Attributes *)

Lemma getAttribute_set_same k v a : getAttribute k (setAttribute k v a) = Some v.
Proof.
  unfold getAttribute. induction a as [| [k' v'] a IH]; simpl.
  - now rewrite String.eqb_refl.
  - destruct (String.eqb k' k) eqn:E; simpl; rewrite E; auto.
Qed.

Lemma getAttribute_set_other k k' v a :
  k <> k' -> getAttribute k (setAttribute k' v a) = getAttribute k a.
Proof.
  intros Hk. unfold getAttribute. induction a as [| [k2 v2] a IH]; simpl.
  - destruct (String.eqb k' k) eqn:E; [apply String.eqb_eq in E; congruence | reflexivity].
  - destruct (String.eqb k2 k') eqn:E; simpl.
    + apply String.eqb_eq in E. subst k2.
      destruct (String.eqb k' k) eqn:E2; [apply String.eqb_eq in E2; congruence | reflexivity].
    + now rewrite IH.
Qed.

Lemma getAttribute_remove_other k k' a :
  k <> k' -> getAttribute k (removeAttribute k' a) = getAttribute k a.
Proof.
  intros Hk. unfold getAttribute, removeAttribute.
  induction a as [| [k2 v2] a IH]; simpl; [reflexivity |].
  destruct (String.eqb k2 k') eqn:E; simpl.
  - apply String.eqb_eq in E. subst k2.
    destruct (String.eqb k' k) eqn:E2; [apply String.eqb_eq in E2; congruence | exact IH].
  - now rewrite IH.
Qed.

Lemma getAttribute_remove_same k a : getAttribute k (removeAttribute k a) = None.
Proof.
  unfold getAttribute, removeAttribute.
  induction a as [| [k2 v2] a IH]; simpl; [reflexivity |].
  destruct (String.eqb k2 k) eqn:E; simpl; [exact IH | now rewrite E].
Qed.

Lemma removeAttribute_absent k a : getAttribute k a = None -> removeAttribute k a = a.
Proof.
  unfold getAttribute, removeAttribute.
  induction a as [| [k2 v2] a IH]; simpl; [reflexivity |].
  destruct (String.eqb k2 k) eqn:E; simpl; [discriminate | intros; f_equal; auto].
Qed.

(** *** The attributes of the root *)

Lemma getAttribute_ensure_other k a :
  k <> "preserveAspectRatio" ->
  getAttribute k (ensurePreserveAspectRatio a) = getAttribute k a.
Proof.
  intros Hk. unfold ensurePreserveAspectRatio.
  destruct (nonEmpty _); [reflexivity | now apply getAttribute_set_other].
Qed.

Lemma rootAttrs_no_size a :
  getAttribute "width" (rootAttrs a) = None /\ getAttribute "height" (rootAttrs a) = None.
Proof.
  unfold rootAttrs. split.
  - rewrite getAttribute_ensure_other, getAttribute_remove_other by discriminate.
    apply getAttribute_remove_same.
  - rewrite getAttribute_ensure_other by discriminate.
    apply getAttribute_remove_same.
Qed.

Lemma ensurePreserveAspectRatio_set a :
  nonEmpty (orEmpty (getAttribute "preserveAspectRatio" (ensurePreserveAspectRatio a))) = true.
Proof.
  unfold ensurePreserveAspectRatio.
  destruct (nonEmpty (orEmpty (getAttribute "preserveAspectRatio" a))) eqn:E; [exact E |].
  now rewrite getAttribute_set_same.
Qed.

Lemma rootAttrs_idempotent a : rootAttrs (rootAttrs a) = rootAttrs a.
Proof.
  destruct (rootAttrs_no_size a) as [Hw Hh].
  unfold rootAttrs at 1.
  assert (Hs : synthesizeViewBox (rootAttrs a) = rootAttrs a).
  { unfold synthesizeViewBox. destruct (hasAttribute _ _); [reflexivity |].
    now rewrite Hw. }
  rewrite Hs, (removeAttribute_absent "width") by exact Hw.
  rewrite (removeAttribute_absent "height") by exact Hh.
  unfold ensurePreserveAspectRatio at 1.
  unfold rootAttrs at 1. now rewrite ensurePreserveAspectRatio_set.
Qed.

(** *** The subtree *)

Lemma isElementNamed_removeElements t t' n :
  isElementNamed t (removeElements t' n) = isElementNamed t n.
Proof. now destruct n. Qed.

Lemma sanitized_children bg cs :
  map (paintForeignObjects bg)
    (map (mapElements recolorRect)
       (map (mapElements removeFilterAttribute)
          (filter (fun c => negb (isElementNamed "filter" c))
             (map (removeElements "filter")
                (filter (fun c => negb (isElementNamed "style" c))
                   (map (removeElements "style") cs))))))
  = map (cleanNode bg) (filter kept cs).
Proof.
  induction cs as [| c cs IH]; [reflexivity |].
  cbn [map filter]. unfold kept at 1.
  rewrite isElementNamed_removeElements.
  destruct (isElementNamed "style" c) eqn:Es; cbn [negb andb]; [exact IH |].
  cbn [map filter]. rewrite !isElementNamed_removeElements.
  destruct (isElementNamed "filter" c) eqn:Ef; cbn [negb andb]; [exact IH |].
  cbn [map]. now rewrite IH.
Qed.

Lemma sanitizeSvg_Element bg tag a cs :
  sanitizeSvg bg (Element tag a cs)
  = Element tag (rootAttrs a) (map (cleanNode bg) (filter kept cs)).
Proof.
  unfold sanitizeSvg. cbn [onAttrs removeElements forDescendants onChildren].
  now rewrite sanitized_children.
Qed.

Lemma cleanNode_Element bg tag a cs :
  cleanNode bg (Element tag a cs)
  = let cs' := map (cleanNode bg) (filter kept cs) in
    Element tag (recolorRect tag (removeFilterAttribute tag a))
      (if String.eqb tag "foreignObject" then paintFirstElement bg cs' else cs').
Proof.
  unfold cleanNode at 1.
  cbn [removeElements mapElements paintForeignObjects].
  now rewrite sanitized_children.
Qed.

Lemma paintFirstElement_texts bg l :
  existsb isElement l = false -> paintFirstElement bg l = l.
Proof.
  induction l as [| [d | tag a cs] l IH]; simpl; intros Hl;
    [reflexivity | now rewrite IH | discriminate].
Qed.

Lemma isElement_cleanNode bg n : isElement (cleanNode bg n) = isElement n.
Proof. destruct n; [reflexivity | now rewrite cleanNode_Element]. Qed.

Lemma no_element_cleaned bg l :
  existsb isElement l = false ->
  existsb isElement (map (cleanNode bg) (filter kept l)) = false.
Proof.
  induction l as [| c l IH]; simpl; intros Hl; [reflexivity |].
  apply orb_false_iff in Hl as [Hc Hl].
  destruct (kept c); simpl; auto.
  rewrite isElement_cleanNode, Hc. simpl. auto.
Qed.

Lemma whiteRect_removeFilter a :
  whiteRect (removeAttribute "filter" a) = whiteRect a.
Proof.
  unfold whiteRect. now rewrite !getAttribute_remove_other by discriminate.
Qed.

(** What the first pass leaves of an element's attributes. *)
Lemma recolored_settled tag a :
  negb (String.eqb tag "rect" && whiteRect a)
  || negb (whiteFillStyle_test (stripFillDecls (orEmpty (getAttribute "style" a)))) = true ->
  let a' := recolorRect tag (removeFilterAttribute tag a) in
  hasAttribute "filter" a' = false
  /\ String.eqb tag "rect" && whiteRect a' = false.
Proof.
  intros Hrep. unfold recolorRect, removeFilterAttribute. cbn zeta.
  assert (Hnf : getAttribute "filter" (removeAttribute "filter" a) = None)
    by apply getAttribute_remove_same.
  destruct (String.eqb tag "rect") eqn:Et; cbn [andb].
  2:{ split; [unfold hasAttribute; now rewrite Hnf | reflexivity]. }
  fold (whiteRect (removeAttribute "filter" a)).
  rewrite whiteRect_removeFilter.
  cbn [andb] in Hrep.
  destruct (whiteRect a) eqn:Ew.
  - cbn [negb orb] in Hrep. apply negb_true_iff in Hrep.
    split.
    + unfold hasAttribute.
      now rewrite !getAttribute_set_other, Hnf by discriminate.
    + unfold whiteRect.
      rewrite getAttribute_set_other, getAttribute_set_same by discriminate.
      rewrite getAttribute_set_same.
      rewrite getAttribute_remove_other by discriminate.
      cbn [orEmpty]. rewrite Hrep. reflexivity.
  - split; [unfold hasAttribute; now rewrite Hnf |].
    now rewrite whiteRect_removeFilter.
Qed.

Lemma cleanNode_settled bg n :
  allElements repeatableElement n = true -> kept n = true ->
  allElements settledElement (cleanNode bg n) = true.
Proof.
  induction n as [d | tag a cs IH] using Node_induction; intros Hrep Hkept.
  - reflexivity.
  - rewrite cleanNode_Element. cbn zeta.
    cbn [allElements] in Hrep. apply andb_true_iff in Hrep as [Hhere Hbelow].
    unfold repeatableElement in Hhere. apply andb_true_iff in Hhere as [Hfo Hrect].
    destruct (recolored_settled tag a Hrect) as [Hnf Hnw].
    assert (Hcs : forallb (allElements settledElement)
                    (map (cleanNode bg) (filter kept cs)) = true).
    { clear - IH Hbelow. induction cs as [| c cs IHcs]; [reflexivity |].
      cbn [forallb] in Hbelow. apply andb_true_iff in Hbelow as [Hc Hcs].
      inversion IH; subst. cbn [filter].
      destruct (kept c) eqn:Ek; cbn [map forallb]; auto.
      rewrite H1, IHcs; auto. }
    assert (Hfo' : negb (String.eqb tag "foreignObject")
                   || negb (existsb isElement (map (cleanNode bg) (filter kept cs))) = true).
    { destruct (String.eqb tag "foreignObject"); [| reflexivity].
      cbn [negb orb] in *. apply negb_true_iff in Hfo.
      now rewrite no_element_cleaned. }
    assert (Hkids : (if String.eqb tag "foreignObject"
                     then paintFirstElement bg (map (cleanNode bg) (filter kept cs))
                     else map (cleanNode bg) (filter kept cs))
                    = map (cleanNode bg) (filter kept cs)).
    { destruct (String.eqb tag "foreignObject"); [| reflexivity].
      cbn [negb orb] in Hfo'. apply negb_true_iff in Hfo'.
      now apply paintFirstElement_texts. }
    rewrite Hkids. cbn [allElements]. rewrite Hcs, andb_true_r.
    unfold settledElement. rewrite Hnf, Hnw, Hfo'.
    unfold kept in Hkept. cbn [isElementNamed] in Hkept.
    apply andb_true_iff in Hkept as [-> ->]. reflexivity.
Qed.

Lemma settled_kept n : allElements settledElement n = true -> kept n = true.
Proof.
  destruct n as [d | tag a cs]; [reflexivity |].
  cbn [allElements]. unfold settledElement, kept. cbn [isElementNamed].
  intros H. repeat (apply andb_true_iff in H as [H ?]). now rewrite H.
Qed.

Lemma settled_forest_kept l :
  forallb (allElements settledElement) l = true -> filter kept l = l.
Proof.
  intros H. apply filter_all_true. rewrite forallb_forall in *.
  intros x Hx. apply settled_kept. auto.
Qed.

Lemma cleanNode_fixes_settled bg n :
  allElements settledElement n = true -> cleanNode bg n = n.
Proof.
  induction n as [d | tag a cs IH] using Node_induction; intros Hs.
  - reflexivity.
  - rewrite cleanNode_Element. cbn zeta.
    cbn [allElements] in Hs. apply andb_true_iff in Hs as [Hhere Hbelow].
    rewrite (settled_forest_kept cs Hbelow).
    assert (Hmap : map (cleanNode bg) cs = cs).
    { apply map_id_Forall. rewrite forallb_forall in Hbelow.
      rewrite Forall_forall in *. auto. }
    rewrite Hmap.
    unfold settledElement in Hhere.
    repeat (apply andb_true_iff in Hhere as [Hhere ?]).
    f_equal.
    + unfold removeFilterAttribute.
      rewrite removeAttribute_absent.
      * unfold recolorRect. fold (whiteRect a).
        destruct (String.eqb tag "rect"); [| reflexivity].
        cbn [andb] in *. now destruct (whiteRect a).
      * unfold hasAttribute in *. now destruct (getAttribute "filter" a).
    + destruct (String.eqb tag "foreignObject"); [| reflexivity].
      apply paintFirstElement_texts. cbn [negb orb] in *.
      now apply negb_true_iff.
Qed.

(** On a repeatable tree a second pass changes nothing. *)
Lemma sanitizeSvg_twice bg svg :
  repeatable svg = true ->
  sanitizeSvg bg (sanitizeSvg bg svg) = sanitizeSvg bg svg.
Proof.
  destruct svg as [d | tag a cs]; [reflexivity |].
  unfold repeatable. cbn [allDescendants]. intros Hrep.
  rewrite !sanitizeSvg_Element, rootAttrs_idempotent. f_equal.
  assert (Hs : forallb (allElements settledElement)
                 (map (cleanNode bg) (filter kept cs)) = true).
  { induction cs as [| c cs IH]; [reflexivity |].
    cbn [forallb] in Hrep. apply andb_true_iff in Hrep as [Hc Hcs].
    cbn [filter]. destruct (kept c) eqn:Ek; cbn [map forallb]; auto.
    rewrite cleanNode_settled, IH; auto. }
  rewrite settled_forest_kept by exact Hs.
  apply map_id_Forall. rewrite forallb_forall in Hs. apply Forall_forall.
  intros x Hx. apply cleanNode_fixes_settled. auto.
Qed.



(** Why the strip of the fill declarations is a side condition: the scan
    goes on behind the semicolon that ends a match, so the declaration that
    follows at once is not matched; a second pass removes it. *)
Lemma stripFillDecls_skips_next :
  stripFillDecls "fill:red;fill:white" = "fill:white"
  /\ whiteFillStyle_test "fill:white" = true
  /\ stripFillDecls "fill:white" = EmptyString.
Proof. repeat split; vm_compute; reflexivity. Qed.


(* ------------------------------------------------------------------ *)
(** ** AcquisitionController *)

Section Controller.
Context {dom : DomApi} {urlApi : UrlApi} {host : ForecastHost}.

Lemma processSvg_frame svgCode w :
  config (processSvg svgCode w) = config w
  /\ timers (processSvg svgCode w) = timers w
  /\ settingChanges (processSvg svgCode w) = settingChanges w.
Proof. unfold processSvg. now destruct (svgElementOf svgCode). Qed.

Lemma processSvg_Ready svgCode svg w :
  svgElementOf svgCode = Some svg ->
  Ready svgCode (outerHTML (sanitizeSvg (overallBackground (config w)) svg))
        (state (processSvg svgCode w)).
Proof. intros Hsvg. unfold processSvg, Ready. rewrite Hsvg. cbn. auto. Qed.

Lemma trimEnd_keeps c r :
  isSpace c = false -> trimEnd (String c r) = String c (trimEnd r).
Proof. intros Hc. cbn [trimEnd]. rewrite Hc. now destruct (trimEnd r). Qed.

(** The guard of the fallback refuses every chart of the forecast path:
    the chart starts with the XML declaration. *)
Lemma chart_document_unusable c forecast w :
  rawSvg (state w) = Some (generateForecastSvg c forecast) ->
  usableFallback w = None.
Proof.
  intros Hraw. unfold usableFallback, fallbackOf. rewrite Hraw.
  unfold generateForecastSvg, xmlDeclaration.
  cbn [append nonEmpty]. unfold trim.
  rewrite trimStart_nonspace by reflexivity.
  rewrite !trimEnd_keeps by reflexivity.
  reflexivity.
Qed.

(** Claim C10.  When no [svg] element can be parsed from its input,
    [processSvg] sets the error to "Invalid SVG content" and clears the
    loading flag; the retained [rawSvg], the displayed [svgHtml] and the rest
    of the state, the configuration, the timers and the setting changes are
    as before. *)
Theorem processSvg_invalid svgCode w :
  svgElementOf svgCode = None ->
  let w' := processSvg svgCode w in
  error (state w') = Some "Invalid SVG content"
  /\ isLoading (state w') = false
  /\ rawSvg (state w') = rawSvg (state w)
  /\ svgHtml (state w') = svgHtml (state w)
  /\ expanded (state w') = expanded (state w)
  /\ displayMode (state w') = displayMode (state w)
  /\ externalUrl (state w') = externalUrl (state w)
  /\ config w' = config w /\ timers w' = timers w
  /\ settingChanges w' = settingChanges w.
Proof. intros Hnone. unfold processSvg. rewrite Hnone. cbn. repeat split. Qed.

(** Claim C1, as amended.  When the fifth attempt fails and the fallback,
    [state.rawSvg] if it is non-empty and [config.svgCode] otherwise, starts
    with [<svg] once trimmed and parses, the controller reaches [Ready] with
    that document on display: on the forecast path and on the direct path
    of both revisions. *)
Theorem final_failure_uses_fallback url coords requestUrl answer w fallback svg :
  usableFallback w = Some fallback ->
  svgElementOf fallback = Some svg ->
  let html := outerHTML (sanitizeSvg (overallBackground (config w)) svg) in
  (ForecastWidget.forecastSvg (config w) answer = None ->
   Ready fallback html
     (state (ForecastWidget.fetchFromForecastApi url coords 5 answer w)))
  /\ (fetchedSvg answer = None ->
      Ready fallback html (state (ForecastWidget.fetchSvgDirect url 5 answer w))
      /\ Ready fallback html
           (state (ExternalWidget.fetchSvgFromUrl url 5 requestUrl answer w))).
Proof.
  intros Hfb Hsvg html. split; [intros Hfail | intros Hfail; split].
  - unfold ForecastWidget.fetchFromForecastApi. rewrite Hfail. cbn [Nat.ltb Nat.leb].
    rewrite Hfb. now apply processSvg_Ready.
  - unfold ForecastWidget.fetchSvgDirect. rewrite Hfail. cbn [Nat.ltb Nat.leb].
    rewrite Hfb. now apply processSvg_Ready.
  - unfold ExternalWidget.fetchSvgFromUrl, ExternalWidget.beginAttempt.
    rewrite Hfail. cbn [Nat.ltb Nat.leb Nat.eqb].
    rewrite Hfb. now apply processSvg_Ready.
Qed.

End Controller.

Section Retry.
Context {dom : DomApi} {urlApi : UrlApi} {host : ForecastHost}.

Lemma acceptSvg_timers svgString w : timers (acceptSvg svgString w) = timers w.
Proof.
  unfold acceptSvg. destruct (processSvg_frame svgString w) as (_ & Ht & _).
  now destruct (startsWith "<svg" svgString).
Qed.

(** An attempt leaves the pending timers alone or adds the one timer of
    its retry. *)
Lemma runTask_timers task requestUrl answer w :
  let w' := runTask task requestUrl answer w in
  timers w' = timers w
  \/ (attemptOf task < 5
      /\ exists retry, timers w' = (1000 * attemptOf task, retry) :: timers w
                       /\ attemptOf retry = attemptOf task + 1)%nat.
Proof.
  destruct task as [url k | url k | url coords k]; cbn [runTask attemptOf].
  - unfold ExternalWidget.fetchSvgFromUrl.
    assert (Hb : timers (ExternalWidget.beginAttempt k w) = timers w)
      by (unfold ExternalWidget.beginAttempt; now destruct (k =? 1)%nat).
    destruct (fetchedSvg answer); [left; now rewrite acceptSvg_timers |].
    destruct (k <? 5)%nat eqn:Ek.
    + right. apply Nat.ltb_lt in Ek. split; [exact Ek |].
      eexists. cbn. rewrite Hb. split; reflexivity.
    + left. destruct (usableFallback _); [| exact Hb].
      now destruct (processSvg_frame s (ExternalWidget.beginAttempt k w)) as (_ & -> & _).
  - unfold ForecastWidget.fetchSvgDirect.
    destruct (fetchedSvg answer); [left; now rewrite acceptSvg_timers |].
    destruct (k <? 5)%nat eqn:Ek.
    + right. apply Nat.ltb_lt in Ek. split; [exact Ek |].
      eexists. cbn. split; reflexivity.
    + left. destruct (usableFallback _); [| reflexivity].
      now destruct (processSvg_frame s w) as (_ & -> & _).
  - unfold ForecastWidget.fetchFromForecastApi.
    destruct (ForecastWidget.forecastSvg (config w) answer).
    + left. cbn. now destruct (processSvg_frame s w) as (_ & -> & _).
    + destruct (k <? 5)%nat eqn:Ek.
      * right. apply Nat.ltb_lt in Ek. split; [exact Ek |].
        eexists. cbn. split; reflexivity.
      * left. destruct (usableFallback _); [| reflexivity].
        now destruct (processSvg_frame s w) as (_ & -> & _).
Qed.

Lemma eventLoop_idle answers w :
  timers w = [] -> eventLoop answers w = (w, []).
Proof. intros Ht. destruct answers as [| [r a] rest]; cbn; now rewrite ?Ht. Qed.

Lemma backoff_from k :
  (1 <= k <= 4)%nat ->
  skipn (k - 1) backoff = (1000 * k)%nat :: skipn k backoff.
Proof.
  intros Hk. assert (Hc : (k = 1 \/ k = 2 \/ k = 3 \/ k = 4)%nat) by lia.
  destruct Hc as [-> | [-> | [-> | ->]]]; reflexivity.
Qed.

(** A chain whose pending retry is attempt [k + 1] waits for the rest of
    the backoff sequence at most. *)
Lemma eventLoop_waits answers : forall w k retry,
  timers w = [((1000 * k)%nat, retry)] -> attemptOf retry = (k + 1)%nat ->
  (1 <= k <= 4)%nat ->
  exists n, snd (eventLoop answers w) = firstn n (skipn (k - 1) backoff).
Proof.
  induction answers as [| [r a] rest IH]; intros w k retry Ht Hk Hrange.
  - exists 0%nat. reflexivity.
  - cbn [eventLoop]. rewrite Ht.
    pose proof (runTask_timers retry r a (clearTimers w [])) as Hstep.
    cbn zeta in Hstep. cbn [timers clearTimers] in Hstep.
    destruct Hstep as [Hdone | (Hlt & retry' & Hnext & Hk')].
    + rewrite eventLoop_idle by exact Hdone.
      exists 1%nat. now rewrite backoff_from.
    + rewrite Hk in Hlt, Hnext, Hk'.
      destruct (IH _ (k + 1)%nat retry' Hnext Hk' ltac:(lia)) as [n Hn].
      destruct (eventLoop rest _) as [w' waits]. cbn [snd] in *.
      exists (S n). rewrite backoff_from by exact Hrange.
      cbn [firstn]. rewrite Hn. now replace (k + 1 - 1)%nat with k by lia.
Qed.

(** The chain that a trigger starts makes five attempts at most, and
    waits for a prefix of the backoff sequence. *)
Lemma chain_waits answers task requestUrl answer w :
  timers w = [] -> attemptOf task = 1%nat ->
  exists n, snd (eventLoop answers (runTask task requestUrl answer w))
            = firstn n backoff.
Proof.
  intros Ht Hk.
  destruct (runTask_timers task requestUrl answer w)
    as [Hdone | (_ & retry & Hnext & Hk')].
  - rewrite eventLoop_idle by congruence. now exists 0%nat.
  - rewrite Ht, Hk in Hnext. rewrite Hk in Hk'.
    destruct (eventLoop_waits answers _ 1%nat retry Hnext Hk' ltac:(lia)) as [n Hn].
    now exists n.
Qed.

Lemma fetchSvgDirect_retry url k answer w :
  (k < 5)%nat -> fetchedSvg answer = None ->
  ForecastWidget.fetchSvgDirect url k answer w
  = setTimeout (FetchSvgDirect url (k + 1)) (1000 * k) w.
Proof.
  intros Hk Hfail. unfold ForecastWidget.fetchSvgDirect. rewrite Hfail.
  apply Nat.ltb_lt in Hk. now rewrite Hk.
Qed.

Lemma fetchFromForecastApi_retry url coords k answer w :
  (k < 5)%nat -> ForecastWidget.forecastSvg (config w) answer = None ->
  ForecastWidget.fetchFromForecastApi url coords k answer w
  = setTimeout (FetchFromForecastApi url coords (k + 1)) (1000 * k) w.
Proof.
  intros Hk Hfail. unfold ForecastWidget.fetchFromForecastApi. rewrite Hfail.
  apply Nat.ltb_lt in Hk. now rewrite Hk.
Qed.

Lemma fetchSvgFromUrl_retry url k requestUrl answer w :
  (k < 5)%nat -> fetchedSvg answer = None ->
  ExternalWidget.fetchSvgFromUrl url k requestUrl answer w
  = setTimeout (FetchSvgFromUrl url (k + 1)) (1000 * k)
      (ExternalWidget.beginAttempt k w).
Proof.
  intros Hk Hfail. unfold ExternalWidget.fetchSvgFromUrl. rewrite Hfail.
  apply Nat.ltb_lt in Hk. now rewrite Hk.
Qed.

End Retry.

(** A widget that shows a document keeps it when it is handed markup with
    an unclosed element. *)
Lemma processSvg_invalid_witness :
  let w := showing "<svg></svg>" "<svg></svg>" in
  let w' := @processSvg simpleDom "<svg><g></svg>" w in
  @svgElementOf simpleDom "<svg><g></svg>" = None
  /\ error (state w') = Some "Invalid SVG content"
  /\ isLoading (state w') = false
  /\ rawSvg (state w') = Some "<svg></svg>"
  /\ svgHtml (state w') = Some "<svg></svg>".
Proof.
  intros w w'.
  assert (Hbad : @svgElementOf simpleDom "<svg><g></svg>" = None)
    by (vm_compute; reflexivity).
  destruct (@processSvg_invalid simpleDom "<svg><g></svg>" w Hbad)
    as (He & Hl & Hr & Hh & _).
  repeat split; assumption.
Defined.

(** A widget that retained [<svg></svg>] shows it again after the fifth
    failure. *)
Lemma final_failure_uses_fallback_witness :
  let w := showing "<svg></svg>" "old" in
  let html := @outerHTML simpleDom (sanitizeSvg "#fff" (Element "svg" [] [])) in
  Ready "<svg></svg>" html
    (state (@ForecastWidget.fetchFromForecastApi simpleDom emptyChart exampleUrl
              {| lat := Finite 60; lon := Finite 10 |} 5 None w))
  /\ Ready "<svg></svg>" html
       (state (@ForecastWidget.fetchSvgDirect simpleDom plainUrl 5 None w))
  /\ Ready "<svg></svg>" html
       (state (@ExternalWidget.fetchSvgFromUrl simpleDom plainUrl 5 plainUrl None w)).
Proof.
  intros w html.
  assert (Hfb : usableFallback w = Some "<svg></svg>") by (vm_compute; reflexivity).
  assert (Hsvg : @svgElementOf simpleDom "<svg></svg>" = Some (Element "svg" [] []))
    by (vm_compute; reflexivity).
  destruct (@final_failure_uses_fallback simpleDom emptyChart exampleUrl
              {| lat := Finite 60; lon := Finite 10 |} plainUrl None w
              "<svg></svg>" (Element "svg" [] []) Hfb Hsvg) as [Hforecast Hdirect].
  split; [apply Hforecast; reflexivity |].
  apply Hdirect. reflexivity.
Defined.

(** Claim C1 fails as stated.  On the forecast path a chart is acquired,
    retained and written back; when the five attempts of the next trigger
    fail the state is the error "Unable to load forecast data." although
    [rawSvg] still holds the chart.  On the direct path a retained document
    that starts with an XML declaration ends in the external view. *)
Lemma stale_xml_document_not_used :
  (let w1 := applySettingChange
               (@ForecastWidget.fetchSvgFromUrl simpleDom simpleUrl emptyChart exampleUrl 1
                  (respond "" (Some (exampleData [goodEntry]))) exampleWorld) in
   let run := @eventLoop simpleDom simpleUrl emptyChart fourFailures
                (@ForecastWidget.fetchSvgFromUrl simpleDom simpleUrl emptyChart
                   exampleUrl 1 None w1) in
   exists doc html,
     Ready doc html (state w1) /\ svgCode (config w1) = Some doc
     /\ snd run = backoff
     /\ rawSvg (state (fst run)) = Some doc
     /\ isLoading (state (fst run)) = false
     /\ error (state (fst run)) = Some "Unable to load forecast data.")
  /\ (let w1 := @ExternalWidget.fetchSvgFromUrl simpleDom plainUrl 1 plainUrl
                  (respond xmlDocument None) exampleWorld in
      let run := @eventLoop simpleDom simpleUrl emptyChart fourFailures
                   (@ExternalWidget.fetchSvgFromUrl simpleDom plainUrl 1 plainUrl None w1) in
      exists html,
        Ready xmlDocument html (state w1)
        /\ snd run = backoff
        /\ rawSvg (state (fst run)) = Some xmlDocument
        /\ displayMode (state (fst run)) = external
        /\ externalUrl (state (fst run)) = Some plainUrl).
Proof.
  split.
  - eexists. eexists. unfold Ready. vm_compute. repeat split; reflexivity.
  - eexists. unfold Ready. vm_compute. repeat split; reflexivity.
Qed.




(* ================================================================== *)
(** * Further properties *)

(* ------------------------------------------------------------------ *)
(** ** SvgSanitizer *)

(** *** What the sanitizer leaves *)

Lemma hasAttribute_forcedBackground k bg a :
  k <> "style" ->
  getAttribute k (forcedBackground bg a) = getAttribute k a.
Proof. intros Hk. unfold forcedBackground. now apply getAttribute_set_other. Qed.

Lemma forallb_paintFirstElement (P : string -> Attrs -> list Node -> bool) bg l :
  (forall tag a cs, P tag a cs = true -> P tag (forcedBackground bg a) cs = true) ->
  forallb (allElements P) l = true ->
  forallb (allElements P) (paintFirstElement bg l) = true.
Proof.
  intros HP. induction l as [| [d | tag a cs] l IH]; cbn [paintFirstElement forallb];
    [reflexivity | exact IH |].
  cbn [allElements]. intros H.
  apply andb_true_iff in H as [Hn Hl]. apply andb_true_iff in Hn as [Hp Hcs].
  now rewrite HP, Hcs, Hl.
Qed.

(** A property of tag and attributes that the recolouring establishes and
    the forced background keeps holds all over a cleaned subtree. *)
Lemma cleanNode_all (Q : string -> Attrs -> bool) bg :
  (forall tag a,
     negb (String.eqb tag "style") && negb (String.eqb tag "filter") = true ->
     Q tag (recolorRect tag (removeFilterAttribute tag a)) = true) ->
  (forall tag a, Q tag a = true -> Q tag (forcedBackground bg a) = true) ->
  forall n, kept n = true ->
            allElements (fun tag a _ => Q tag a) (cleanNode bg n) = true.
Proof.
  intros Hset Hkeep.
  induction n as [d | tag a cs IH] using Node_induction; intros Hk; [reflexivity |].
  rewrite cleanNode_Element. cbn zeta. cbn [allElements].
  rewrite Hset by exact Hk. cbn [andb].
  assert (Hcs : forallb (allElements (fun tag a _ => Q tag a))
                  (map (cleanNode bg) (filter kept cs)) = true).
  { clear - IH. induction cs as [| c cs IHcs]; [reflexivity |].
    inversion IH; subst. cbn [filter].
    destruct (kept c) eqn:Ek; cbn [map forallb]; auto.
    rewrite H1, IHcs; auto. }
  destruct (String.eqb tag "foreignObject"); [| exact Hcs].
  apply forallb_paintFirstElement; [| exact Hcs]. intros; now apply Hkeep.
Qed.

Lemma sanitizeSvg_all (Q : string -> Attrs -> bool) bg svg :
  (forall tag a,
     negb (String.eqb tag "style") && negb (String.eqb tag "filter") = true ->
     Q tag (recolorRect tag (removeFilterAttribute tag a)) = true) ->
  (forall tag a, Q tag a = true -> Q tag (forcedBackground bg a) = true) ->
  allDescendants (fun tag a _ => Q tag a) (sanitizeSvg bg svg) = true.
Proof.
  intros Hset Hkeep. destruct svg as [d | tag a cs]; [reflexivity |].
  rewrite sanitizeSvg_Element. cbn [allDescendants].
  apply forallb_forall. intros x Hx. apply in_map_iff in Hx as (c & <- & Hc).
  apply filter_In in Hc as [_ Hk]. now apply cleanNode_all.
Qed.

Lemma recolorRect_filter_free tag a :
  hasAttribute "filter" (recolorRect tag (removeFilterAttribute tag a)) = false.
Proof.
  unfold recolorRect, removeFilterAttribute, hasAttribute.
  assert (Hnf : getAttribute "filter" (removeAttribute "filter" a) = None)
    by apply getAttribute_remove_same.
  destruct (String.eqb tag "rect"); [| now rewrite Hnf].
  destruct (isWhite _ || whiteFillStyle_test _); [| now rewrite Hnf].
  now rewrite !getAttribute_set_other, Hnf by discriminate.
Qed.

Lemma recolorRect_no_white tag a :
  String.eqb tag "rect" && isWhite (getAttribute "fill" (recolorRect tag a)) = false.
Proof.
  unfold recolorRect. destruct (String.eqb tag "rect"); [| reflexivity].
  cbn [andb].
  destruct (isWhite (getAttribute "fill" a)) eqn:Ew; cbn [orb].
  - now rewrite getAttribute_set_other, getAttribute_set_same by discriminate.
  - destruct (whiteFillStyle_test _); [| exact Ew].
    now rewrite getAttribute_set_other, getAttribute_set_same by discriminate.
Qed.

(** Property X1.  The markup that [processSvg] displays has no embedded
    styling left below its root: no descendant of the sanitized root is a
    [style] or a [filter] element or has a [filter] attribute, whatever the
    input and the theme. *)
Theorem sanitizeSvg_styling_free bg svg :
  allDescendants stylingFree (sanitizeSvg bg svg) = true.
Proof.
  apply (sanitizeSvg_all
           (fun tag a => negb (String.eqb tag "style") && negb (String.eqb tag "filter")
                         && negb (hasAttribute "filter" a))).
  - intros tag a Hk. now rewrite Hk, recolorRect_filter_free.
  - intros tag a H. apply andb_true_iff in H as [-> Hf]. cbn [andb].
    unfold hasAttribute in *.
    now rewrite hasAttribute_forcedBackground by discriminate.
Qed.

(** Property X2.  No white plate survives: no [rect] below the sanitized
    root has a [fill] attribute that [isWhite] takes for white, whatever
    the input and the theme. *)
Theorem sanitizeSvg_no_white_rect bg svg :
  allDescendants noWhiteFill (sanitizeSvg bg svg) = true.
Proof.
  apply (sanitizeSvg_all
           (fun tag a => negb (String.eqb tag "rect" && isWhite (getAttribute "fill" a)))).
  - intros tag a _. now rewrite recolorRect_no_white.
  - intros tag a H. now rewrite hasAttribute_forcedBackground by discriminate.
Qed.

Lemma getAttribute_synthesize_other k a :
  k <> "viewBox" -> getAttribute k (synthesizeViewBox a) = getAttribute k a.
Proof.
  intros Hk. unfold synthesizeViewBox.
  destruct (hasAttribute "viewBox" a); [reflexivity |].
  destruct (option_map _ _); [| reflexivity].
  destruct (option_map _ _); [| reflexivity].
  destruct (nonEmpty _ && nonEmpty _); [| reflexivity].
  now apply getAttribute_set_other.
Qed.

Lemma getAttribute_rootAttrs k a :
  k <> "width" -> k <> "height" -> k <> "preserveAspectRatio" ->
  getAttribute k (rootAttrs a) = getAttribute k (synthesizeViewBox a).
Proof.
  intros Hw Hh Hp. unfold rootAttrs.
  rewrite getAttribute_ensure_other by exact Hp.
  now rewrite !getAttribute_remove_other by assumption.
Qed.

(** Property X3.  The root of the sanitized tree scales with its
    container: it has no [width] and no [height], it has a non-empty
    [preserveAspectRatio], a [viewBox] of the input is kept as it is, a
    missing [viewBox] is made from the input's [width] and [height] with
    the first [px] of each removed, and every other attribute of the root
    is the input's. *)
Theorem sanitizeSvg_root bg tag a cs :
  exists a' cs',
    sanitizeSvg bg (Element tag a cs) = Element tag a' cs'
    /\ getAttribute "width" a' = None /\ getAttribute "height" a' = None
    /\ nonEmpty (orEmpty (getAttribute "preserveAspectRatio" a')) = true
    /\ (forall v, getAttribute "viewBox" a = Some v -> getAttribute "viewBox" a' = Some v)
    /\ (forall w h,
          getAttribute "viewBox" a = None ->
          getAttribute "width" a = Some w -> getAttribute "height" a = Some h ->
          nonEmpty (removeFirst "px" w) = true -> nonEmpty (removeFirst "px" h) = true ->
          getAttribute "viewBox" a'
          = Some ("0 0 " ++ removeFirst "px" w ++ " " ++ removeFirst "px" h))
    /\ (forall k, scalingAttribute k = false -> getAttribute k a' = getAttribute k a).
Proof.
  rewrite sanitizeSvg_Element. eexists. eexists. split; [reflexivity |].
  destruct (rootAttrs_no_size a) as [Hw Hh].
  split; [exact Hw |]. split; [exact Hh |].
  split; [apply ensurePreserveAspectRatio_set |].
  split; [| split].
  - intros v Hv. rewrite getAttribute_rootAttrs by discriminate.
    unfold synthesizeViewBox, hasAttribute. now rewrite Hv.
  - intros w h Hv Hwa Hha Hwn Hhn. rewrite getAttribute_rootAttrs by discriminate.
    unfold synthesizeViewBox, hasAttribute. rewrite Hv, Hwa, Hha. cbn [option_map].
    rewrite Hwn, Hhn. cbn [andb]. apply getAttribute_set_same.
  - intros k Hk. unfold scalingAttribute in Hk.
    repeat (apply orb_false_iff in Hk as [Hk ?]).
    rewrite String.eqb_sym in Hk. 
    assert (k <> "viewBox") by (intros ->; discriminate).
    assert (k <> "width") by (intros ->; discriminate).
    assert (k <> "height") by (intros ->; discriminate).
    assert (k <> "preserveAspectRatio") by (intros ->; discriminate).
    rewrite getAttribute_rootAttrs by assumption.
    now apply getAttribute_synthesize_other.
Qed.

Lemma sanitizeSvg_root_witness :
  exists a' cs',
    sanitizeSvg "#fff" (Element "svg" [("width", "10px"); ("height", "5px")] [])
    = Element "svg" a' cs'
    /\ getAttribute "viewBox" a' = Some "0 0 10 5".
Proof.
  destruct (sanitizeSvg_root "#fff" "svg" [("width", "10px"); ("height", "5px")] [])
    as (a' & cs' & Heq & _ & _ & _ & _ & Hbox & _).
  exists a', cs'. split; [exact Heq |].
  exact (Hbox "10px" "5px" eq_refl eq_refl eq_refl eq_refl eq_refl).
Defined.

Lemma cleanNode_theme bg1 bg2 n :
  allElements foreignObjectEmpty n = true -> cleanNode bg1 n = cleanNode bg2 n.
Proof.
  induction n as [d | tag a cs IH] using Node_induction; intros Hn; [reflexivity |].
  rewrite !cleanNode_Element. cbn zeta.
  cbn [allElements] in Hn. apply andb_true_iff in Hn as [Hfo Hcs].
  assert (Hmap : map (cleanNode bg1) (filter kept cs) = map (cleanNode bg2) (filter kept cs)).
  { apply map_ext_in. intros c Hc. apply filter_In in Hc as [Hc _].
    rewrite Forall_forall in IH. apply IH; [exact Hc |].
    rewrite forallb_forall in Hcs. now apply Hcs. }
  rewrite Hmap. f_equal.
  unfold foreignObjectEmpty in Hfo.
  destruct (String.eqb tag "foreignObject"); [| reflexivity].
  cbn [negb orb] in Hfo. apply negb_true_iff in Hfo.
  now rewrite !paintFirstElement_texts by now apply no_element_cleaned.
Qed.

(** Property X4.  The theme colour [overallBackground] enters the
    sanitized markup only through the content of [foreignObject] elements:
    on an input in which no [foreignObject] below the root has an element
    child, two themes give the same tree. *)
Theorem sanitizeSvg_theme bg1 bg2 svg :
  allDescendants foreignObjectEmpty svg = true ->
  sanitizeSvg bg1 svg = sanitizeSvg bg2 svg.
Proof.
  destruct svg as [d | tag a cs]; [reflexivity |].
  cbn [allDescendants]. intros Hcs. rewrite !sanitizeSvg_Element. f_equal.
  apply map_ext_in. intros c Hc. apply filter_In in Hc as [Hc _].
  apply cleanNode_theme. rewrite forallb_forall in Hcs. now apply Hcs.
Qed.

Lemma sanitizeSvg_theme_witness :
  let svg := Element "svg" [("width", "10")]
               [Element "rect" [("fill", "white")] []; Element "foreignObject" [] [Text "t"]] in
  allDescendants foreignObjectEmpty svg = true
  /\ sanitizeSvg "#000" svg = sanitizeSvg "#fff" svg.
Proof.
  intros svg. assert (H : allDescendants foreignObjectEmpty svg = true) by reflexivity.
  split; [exact H | exact (sanitizeSvg_theme "#000" "#fff" svg H)].
Defined.

(* ------------------------------------------------------------------ *)
(** ** ForecastTransformer *)

Lemma transformForecast_nonempty now data payload :
  transformForecast now data = Some payload -> points payload <> [].
Proof.
  unfold transformForecast.
  destruct (match Some data ?. "properties" ?. "timeseries" with
            | Some (JArray items) => items | _ => [] end); [discriminate |].
  destruct (fold_left transformEntry _ _) eqn:E; [discriminate |].
  intros [= <-]. discriminate.
Qed.

Lemma transformForecast_updatedAt now data payload :
  transformForecast now data = Some payload ->
  updatedAt payload
  = match Some data ?. "properties" ?. "meta" ?. "updated_at" with
    | Some u => if truthy (Some u) then u else JString now
    | None => JString now
    end.
Proof.
  unfold transformForecast.
  set (u := Some data ?. "properties" ?. "meta" ?. "updated_at").
  destruct (match Some data ?. "properties" ?. "timeseries" with
            | Some (JArray items) => items | _ => [] end); [discriminate |].
  destruct (fold_left transformEntry _ _) eqn:E; [discriminate |].
  intros Heq. injection Heq as <-. cbn [updatedAt]. now destruct u.
Qed.

Lemma length_filter_le {A} (p : A -> bool) l :
  (List.length (filter p l) <= List.length l)%nat.
Proof. induction l as [| x l IH]; cbn; [lia |]. destruct (p x); cbn; lia. Qed.

Lemma Forall2_length_eq {A B} (R : A -> B -> Prop) l l' :
  Forall2 R l l' -> List.length l = List.length l'.
Proof. induction 1; cbn; congruence. Qed.

(** Property X5.  [transformForecast] returns [null] exactly when none of
    the first 48 entries of the series is usable.
    A payload it returns has between 1 and 48 points, and its [updatedAt]
    is [properties.meta.updated_at] when that is truthy and the current
    time otherwise. *)
Theorem transformForecast_bounds now data :
  (transformForecast now data = None
   <-> filter usable (firstn 48 (seriesOf data)) = [])
  /\ (forall payload,
        transformForecast now data = Some payload ->
        (1 <= List.length (points payload) <= 48)%nat
        /\ updatedAt payload
           = match Some data ?. "properties" ?. "meta" ?. "updated_at" with
             | Some u => if truthy (Some u) then u else JString now
             | None => JString now
             end).
Proof.
  pose proof (transformForecast_loop now data) as Hloop.
  pose proof (flat_map_usable (fun _ _ => True) (firstn 48 (seriesOf data))
                (fun _ _ _ _ => I)) as Hlen.
  apply Forall2_length_eq in Hlen. rewrite <- Hloop in Hlen.
  split; [split |].
  - intros Hnone. rewrite Hnone in Hlen. cbn in Hlen.
    now destruct (filter usable _).
  - intros Hempty. rewrite Hempty in Hlen. cbn in Hlen.
    destruct (transformForecast now data) as [payload |] eqn:E; [| reflexivity].
    apply transformForecast_nonempty in E. cbn in Hlen.
    now destruct (points payload).
  - intros payload Hsome. split; [| now apply transformForecast_updatedAt].
    rewrite Hsome in Hlen. cbn [pointsOf] in Hlen.
    pose proof (transformForecast_nonempty _ _ _ Hsome) as Hne.
    pose proof (length_filter_le usable (firstn 48 (seriesOf data))) as Hle.
    pose proof (firstn_le_length 48 (seriesOf data)) as H48.
    destruct (points payload); [congruence |]. cbn [List.length] in *. lia.
Qed.

Lemma transformForecast_bounds_witness :
  let data := exampleData [goodEntry; noTemperatureEntry; sixHourEntry] in
  exists payload,
    transformForecast "2024-01-01T00:00:00.000Z" data = Some payload
    /\ (1 <= List.length (points payload) <= 48)%nat.
Proof.
  intros data.
  destruct (transformForecast "2024-01-01T00:00:00.000Z" data) as [payload |] eqn:E.
  - exists payload. split; [reflexivity |].
    exact (proj1 (proj2 (transformForecast_bounds _ data) payload E)).
  - exfalso. vm_compute in E. discriminate E.
Defined.

(* ------------------------------------------------------------------ *)
(** ** ChartRenderer *)

(** *** The wind scale, the x positions and the bars *)

Lemma qmax_lub a b c : a <= c -> b <= c -> qmax a b <= c.
Proof. intros Ha Hb. unfold qmax. now destruct (Qle_bool a b). Qed.

Lemma windMax_bound pts :
  5 <= Chart.windMax pts
  /\ forall p, In p pts ->
       windSpeed p <= Chart.windMax pts
       /\ match windGust p with Some g => g | None => windSpeed p end <= Chart.windMax pts.
Proof.
  unfold Chart.windMax.
  destruct (Math_max_bound (Chart.gusts pts ++ Chart.windSpeeds pts) 5) as [Hd Hx].
  split; [exact Hd |]. intros p Hp. split; apply Hx, in_or_app.
  - right. unfold Chart.windSpeeds. now apply in_map.
  - left. unfold Chart.gusts.
    now apply (in_map (fun p => match windGust p with Some g => g | None => windSpeed p end)).
Qed.

Lemma windY_band_value pts v :
  0 <= v -> v <= Chart.windMax pts ->
  Chart.windYBase - Chart.windSection <= Chart.windY pts v
  /\ Chart.windY pts v <= Chart.windYBase.
Proof.
  intros H0 Hmax. destruct (windMax_bound pts) as [H5 _].
  unfold Chart.windY. set (M := Chart.windMax pts) in *.
  assert (HM : 0 < M) by lra.
  assert (Hd0 : 0 <= v / M) by (apply Qle_shift_div_l; [exact HM | lra]).
  assert (Hd1 : v / M <= 1) by (apply Qle_shift_div_r; [exact HM | lra]).
  set (d := v / M) in *.
  unfold Chart.windYBase, Chart.precipBase, Chart.windSection, Chart.precipSection,
    Chart.tempSection, Chart.innerHeight, Chart.height, Chart.margin_top,
    Chart.margin_bottom.
  split; lra.
Qed.



Lemma inject_nat_nonneg n : 0 <= inject_Z (Z.of_nat n).
Proof. change 0 with (inject_Z 0). rewrite <- Zle_Qle. lia. Qed.

Lemma inject_nat_le n m : (n <= m)%nat -> inject_Z (Z.of_nat n) <= inject_Z (Z.of_nat m).
Proof. intros H. rewrite <- Zle_Qle. lia. Qed.



Lemma precipMax_bound pts :
  1 <= Chart.precipMax pts
  /\ forall p v, In p pts -> precipitation p = Some v -> v <= Chart.precipMax pts.
Proof.
  unfold Chart.precipMax.
  destruct (Math_max_bound (Chart.precipValues pts) 1) as [Hd Hx].
  split; [exact Hd |]. intros p v Hp Hv. apply Hx. unfold Chart.precipValues.
  apply in_map_iff. exists p. now rewrite Hv.
Qed.

Lemma qmax_double a b : qmax (2 * a) (2 * b) == 2 * qmax a b.
Proof.
  unfold qmax. destruct (Qle_bool a b) eqn:E.
  - assert (H : Qle_bool (2 * a) (2 * b) = true).
    { apply Qle_bool_iff. apply Qle_bool_iff in E. lra. }
    now rewrite H.
  - destruct (Qle_bool (2 * a) (2 * b)) eqn:E2; [| reflexivity].
    apply Qle_bool_iff in E2.
    assert (Hle : a <= b) by lra. apply Qle_bool_iff in Hle. congruence.
Qed.

Lemma qmax_compat a a' b b' : a == a' -> b == b' -> qmax a b == qmax a' b'.
Proof.
  intros Ha Hb. unfold qmax.
  destruct (Qle_bool a b) eqn:E, (Qle_bool a' b') eqn:E'; try assumption.
  - apply Qle_bool_iff in E. rewrite Ha, Hb in E. apply Qle_bool_iff in E. congruence.
  - apply Qle_bool_iff in E'. rewrite <- Ha, <- Hb in E'.
    apply Qle_bool_iff in E'. congruence.
Qed.

Lemma combine_seq_In {A} (l : list A) : forall start i x,
  In (i, x) (combine (seq start (List.length l)) l) ->
  nth_error l (i - start) = Some x /\ (start <= i)%nat.
Proof.
  induction l as [| y l IH]; intros start i x; cbn; [intros [] |].
  intros [[= <- <-] | Hin].
  - rewrite Nat.sub_diag. split; [reflexivity | lia].
  - destruct (IH _ _ _ Hin) as [Hn Hle]. split; [| lia].
    replace (i - start)%nat with (S (i - S start)) by lia. exact Hn.
Qed.



(** *** The tick loops *)

Lemma inject_nat_succ k : inject_Z (Z.of_nat (S k)) == inject_Z (Z.of_nat k) + 1.
Proof. rewrite Nat2Z.inj_succ. unfold Z.succ. now rewrite inject_Z_plus. Qed.

Lemma countUp_sound fuel : forall v step limit t,
  0 <= step -> In t (countUp fuel v step limit) ->
  v <= t /\ t <= limit /\ exists k : nat, t == v + inject_Z (Z.of_nat k) * step.
Proof.
  induction fuel as [| fuel IH]; intros v step limit t Hstep Hin; [destruct Hin |].
  cbn [countUp] in Hin. destruct (Qle_bool v limit) eqn:E; [| destruct Hin].
  apply Qle_bool_iff in E. destruct Hin as [<- | Hin].
  - split; [apply Qle_refl |]. split; [exact E |]. exists 0%nat.
    change (inject_Z (Z.of_nat 0)) with 0. ring.
  - destruct (IH _ _ _ _ Hstep Hin) as (Hv & Hl & k & Hk).
    split; [lra |]. split; [exact Hl |]. exists (S k).
    rewrite inject_nat_succ, Hk. ring.
Qed.

Lemma countUp_complete k : forall fuel v step limit,
  (k < fuel)%nat -> 0 <= step ->
  v + inject_Z (Z.of_nat k) * step <= limit ->
  exists t, In t (countUp fuel v step limit) /\ t == v + inject_Z (Z.of_nat k) * step.
Proof.
  induction k as [| k IH]; intros fuel v step limit Hfuel Hstep Hle;
    (destruct fuel as [| fuel]; [lia |]); cbn [countUp].
  - change (inject_Z (Z.of_nat 0)) with 0 in *. assert (Hv : v <= limit) by lra.
    apply Qle_bool_iff in Hv. rewrite Hv. exists v. split; [now left |]. ring.
  - rewrite inject_nat_succ in Hle.
    pose proof (inject_nat_nonneg k) as Hk0.
    assert (Hprod : 0 <= inject_Z (Z.of_nat k) * step) by now apply Qmult_le_0_compat.
    assert (Hv : v <= limit) by lra.
    apply Qle_bool_iff in Hv. rewrite Hv.
    destruct (IH fuel (v + step) step limit ltac:(lia) Hstep ltac:(lra)) as (t & Hin & Ht).
    exists t. split; [now right |]. rewrite Ht, inject_nat_succ. ring.
Qed.

(** The fuel of the loops is enough: a value the loop would reach within
    the limit is reached within [loopFuel] rounds. *)
Lemma loopFuel_enough start step limit k :
  0 < step -> start + inject_Z (Z.of_nat k) * step <= limit ->
  (k < loopFuel start step limit)%nat.
Proof.
  intros Hstep Hle. unfold loopFuel.
  assert (Hq : inject_Z (Z.of_nat k) <= (limit - start) / step)
    by (apply Qle_shift_div_l; [exact Hstep | lra]).
  apply Qfloor_resp_le in Hq. rewrite Qfloor_Z in Hq. lia.
Qed.

(** With enough fuel the loop leaves by its own test: more fuel changes
    nothing. *)
Lemma countUp_stable fuel : forall v step limit extra,
  0 <= step ->
  (forall k, v + inject_Z (Z.of_nat k) * step <= limit -> (k < fuel)%nat) ->
  countUp (fuel + extra) v step limit = countUp fuel v step limit.
Proof.
  induction fuel as [| fuel IH]; intros v step limit extra Hstep Hfuel.
  - cbn [Nat.add countUp]. destruct extra as [| extra]; [reflexivity |].
    cbn [countUp]. destruct (Qle_bool v limit) eqn:E; [| reflexivity].
    apply Qle_bool_iff in E. specialize (Hfuel 0%nat).
    change (inject_Z (Z.of_nat 0)) with 0 in Hfuel.
    assert (v + 0 * step <= limit) by lra. specialize (Hfuel H). lia.
  - cbn [Nat.add countUp]. destruct (Qle_bool v limit); [| reflexivity].
    f_equal. apply IH; [exact Hstep |]. intros k Hk.
    specialize (Hfuel (S k)). rewrite inject_nat_succ in Hfuel.
    assert (v + (inject_Z (Z.of_nat k) + 1) * step <= limit) by lra.
    specialize (Hfuel H). lia.
Qed.

Lemma tempStep_positive pts : 0 < tempStep pts.
Proof.
  unfold tempStep. destruct (Qle_bool _ 10); [reflexivity |].
  destruct (Qle_bool _ 20); reflexivity.
Qed.

Lemma windStep_positive pts : 0 < windStep pts.
Proof.
  unfold windStep. destruct (Qle_bool _ 10); [reflexivity |].
  destruct (Qle_bool _ 20); reflexivity.
Qed.

Lemma tempY_band_value pts v :
  Chart.tempMin pts <= v -> v <= Chart.tempMax pts ->
  Chart.margin_top <= Chart.tempY pts v
  /\ Chart.tempY pts v <= Chart.margin_top + Chart.tempSection.
Proof.
  intros Hmin Hmax.
  pose proof (qmax_l (Chart.tempMax pts - Chart.tempMin pts) 5) as Hrange.
  pose proof (qmax_r (Chart.tempMax pts - Chart.tempMin pts) 5) as Hfloor.
  fold (Chart.tempRange pts) in Hrange, Hfloor.
  unfold Chart.tempY.
  set (M := Chart.tempMax pts) in *. set (m := Chart.tempMin pts) in *.
  set (R := Chart.tempRange pts) in *.
  assert (HR : 0 < R) by lra.
  assert (H0 : 0 <= (M - v) / R) by (apply Qle_shift_div_l; [exact HR | lra]).
  assert (H1 : (M - v) / R <= 1) by (apply Qle_shift_div_r; [exact HR | lra]).
  set (d := (M - v) / R) in *.
  unfold Chart.margin_top, Chart.tempSection, Chart.innerHeight, Chart.height,
    Chart.margin_top, Chart.margin_bottom.
  split; lra.
Qed.

Lemma tempTicks_start pts :
  let step := tempStep pts in
  let start := Math_ceil (Chart.tempMin pts / step) * step in
  Chart.tempMin pts <= start.
Proof.
  intros step start. subst start. unfold Math_ceil.
  pose proof (tempStep_positive pts) as Hs. fold step in Hs.
  pose proof (Qle_ceiling (Chart.tempMin pts / step)) as Hc.
  set (c := inject_Z (Qceiling (Chart.tempMin pts / step))) in *.
  assert (Heq : Chart.tempMin pts == Chart.tempMin pts / step * step) by (field; lra).
  rewrite Heq at 1. apply Qmult_le_compat_r; [exact Hc | lra].
Qed.





(* ------------------------------------------------------------------ *)
(** ** AcquisitionController *)

Section Exhausted.
Context {dom : DomApi} {urlApi : UrlApi} {host : ForecastHost}.

Lemma processSvg_loaded svgCode w : isLoading (state (processSvg svgCode w)) = false.
Proof. unfold processSvg. now destruct (svgElementOf svgCode). Qed.

Lemma acceptSvg_loaded svgString w : isLoading (state (acceptSvg svgString w)) = false.
Proof.
  unfold acceptSvg. destruct (startsWith "<svg" svgString); cbn [state onSettingChange];
    apply processSvg_loaded.
Qed.

(** An attempt of a loading widget ends the loading or leaves one retry
    pending. *)
Lemma runTask_loading task requestUrl answer w :
  isLoading (state w) = true -> timers w = [] ->
  let w' := runTask task requestUrl answer w in
  isLoading (state w') = pendingRetry w' /\ (List.length (timers w') <= 1)%nat.
Proof.
  intros Hload Ht.
  destruct task as [url k | url k | url coords k]; cbn [runTask].
  - unfold ExternalWidget.fetchSvgFromUrl.
    assert (Hb : isLoading (state (ExternalWidget.beginAttempt k w)) = true
                 /\ timers (ExternalWidget.beginAttempt k w) = [])
      by (unfold ExternalWidget.beginAttempt; now destruct (k =? 1)%nat).
    destruct Hb as [Hbl Hbt]. set (w1 := ExternalWidget.beginAttempt k w) in *.
    destruct (fetchedSvg answer).
    + unfold pendingRetry. rewrite acceptSvg_timers, acceptSvg_loaded, Hbt. cbn. auto.
    + destruct (k <? 5)%nat.
      * unfold pendingRetry. cbn. rewrite Hbl, Hbt. cbn. auto.
      * destruct (usableFallback w1).
        -- unfold pendingRetry. destruct (processSvg_frame s w1) as (_ & -> & _).
           rewrite processSvg_loaded, Hbt. cbn. auto.
        -- unfold pendingRetry. cbn. rewrite Hbt. cbn. auto.
  - unfold ForecastWidget.fetchSvgDirect. destruct (fetchedSvg answer).
    + unfold pendingRetry. rewrite acceptSvg_timers, acceptSvg_loaded, Ht. cbn. auto.
    + destruct (k <? 5)%nat.
      * unfold pendingRetry. cbn. rewrite Hload, Ht. cbn. auto.
      * destruct (usableFallback w).
        -- unfold pendingRetry. destruct (processSvg_frame s w) as (_ & -> & _).
           rewrite processSvg_loaded, Ht. cbn. auto.
        -- unfold pendingRetry. cbn. rewrite Ht. cbn. auto.
  - unfold ForecastWidget.fetchFromForecastApi.
    destruct (ForecastWidget.forecastSvg (config w) answer).
    + unfold pendingRetry. cbn. destruct (processSvg_frame s w) as (_ & -> & _).
      rewrite processSvg_loaded, Ht. cbn. auto.
    + destruct (k <? 5)%nat.
      * unfold pendingRetry. cbn. rewrite Hload, Ht. cbn. auto.
      * destruct (usableFallback w).
        -- unfold pendingRetry. destruct (processSvg_frame s w) as (_ & -> & _).
           rewrite processSvg_loaded, Ht. cbn. auto.
        -- unfold pendingRetry. cbn. rewrite Ht. cbn. auto.
Qed.

Lemma eventLoop_loading answers : forall w,
  isLoading (state w) = pendingRetry w -> (List.length (timers w) <= 1)%nat ->
  let w' := fst (eventLoop answers w) in
  isLoading (state w') = pendingRetry w' /\ (List.length (timers w') <= 1)%nat.
Proof.
  induction answers as [| [r a] rest IH]; intros w Hinv Hlen; [now split |].
  cbn [eventLoop]. destruct (timers w) as [| [d task] pending] eqn:Ht.
  - cbn [fst]. now rewrite Ht.
  - destruct pending; [| cbn in Hlen; lia].
    unfold pendingRetry in Hinv. rewrite Ht in Hinv.
    destruct (runTask_loading task r a (clearTimers w []) Hinv eq_refl) as [Hi Hl].
    specialize (IH _ Hi Hl).
    destruct (eventLoop rest _) as [w' waits]. exact IH.
Qed.

(** Property X11.  A chain of attempts started by [fetchSvgFromUrl] with
    no timer pending shows the loading state exactly as long as a retry is
    pending, whatever the network answers and however many of its timers
    have fired, and it never has more than one retry pending; in both
    revisions. *)
Theorem loading_while_retry_pending url requestUrl answer answers w :
  timers w = [] ->
  (let w' := fst (eventLoop answers (ForecastWidget.fetchSvgFromUrl url 1 answer w)) in
   isLoading (state w') = pendingRetry w' /\ (List.length (timers w') <= 1)%nat)
  /\ (let w' := fst (eventLoop answers
                       (ExternalWidget.fetchSvgFromUrl url 1 requestUrl answer w)) in
      isLoading (state w') = pendingRetry w' /\ (List.length (timers w') <= 1)%nat).
Proof.
  intros Ht. split.
  - unfold ForecastWidget.fetchSvgFromUrl.
    assert (Hb : isLoading (state (ForecastWidget.beginAttempt 1 w)) = true
                 /\ timers (ForecastWidget.beginAttempt 1 w) = []) by (cbn; auto).
    destruct Hb as [Hbl Hbt].
    destruct (extractCoordinates url) as [c |].
    + destruct (runTask_loading (FetchFromForecastApi url c 1) requestUrl answer _ Hbl Hbt).
      now apply eventLoop_loading.
    + destruct (runTask_loading (FetchSvgDirect url 1) requestUrl answer _ Hbl Hbt).
      now apply eventLoop_loading.
  - assert (Hb : isLoading (state (setState (fun s =>
                   {| svgHtml := svgHtml s; isLoading := true; error := error s;
                      rawSvg := rawSvg s; expanded := expanded s;
                      displayMode := displayMode s; externalUrl := externalUrl s |}) w))
                 = true) by reflexivity.
    set (w0 := setState _ w) in Hb.
    assert (Hsame : ExternalWidget.fetchSvgFromUrl url 1 requestUrl answer w
                    = ExternalWidget.fetchSvgFromUrl url 1 requestUrl answer w0)
      by reflexivity.
    rewrite Hsame.
    destruct (runTask_loading (FetchSvgFromUrl url 1) requestUrl answer w0 Hb Ht).
    now apply eventLoop_loading.
Qed.

(** Property X12.  With no usable fallback, five failed attempts end,
    after the delays 1000, 2000, 3000 and 4000, as follows: the forecast
    path shows the error "Unable to load forecast data.", the direct path
    of the revision with the forecast path shows "Unable to load meteogram
    from source.", and the revision with the external view shows the
    request URL of the last attempt in its external view.  The retained
    [rawSvg] and [svgHtml] are as before the first attempt. *)
Theorem retries_exhausted url coords requestUrl a1 a2 a3 a4 a5 r2 r3 r4 r5 w :
  usableFallback w = None ->
  let answers := [(r2, a2); (r3, a3); (r4, a4); (r5, a5)] in
  let refresh := isSome (truthyString (sourceUrl (config w))) in
  (extractCoordinates url = Some coords ->
   Forall (fun a => ForecastWidget.forecastSvg (config w) a = None) [a1; a2; a3; a4; a5] ->
   let run := eventLoop answers (ForecastWidget.fetchSvgFromUrl url 1 a1 w) in
   snd run = backoff
   /\ content (config w) (state (fst run)) = ErrorView "Unable to load forecast data." refresh
   /\ rawSvg (state (fst run)) = rawSvg (state w)
   /\ svgHtml (state (fst run)) = svgHtml (state w))
  /\ (Forall (fun a => fetchedSvg a = None) [a1; a2; a3; a4; a5] ->
      (extractCoordinates url = None ->
       let run := eventLoop answers (ForecastWidget.fetchSvgFromUrl url 1 a1 w) in
       snd run = backoff
       /\ content (config w) (state (fst run))
          = ErrorView "Unable to load meteogram from source." refresh
       /\ rawSvg (state (fst run)) = rawSvg (state w)
       /\ svgHtml (state (fst run)) = svgHtml (state w))
      /\ (nonEmpty r5 = true ->
          let run := eventLoop answers
                       (ExternalWidget.fetchSvgFromUrl url 1 requestUrl a1 w) in
          snd run = backoff
          /\ content (config w) (state (fst run)) = ExternalView r5
          /\ rawSvg (state (fst run)) = rawSvg (state w)
          /\ svgHtml (state (fst run)) = svgHtml (state w))).
Proof.
  intros Hfb answers refresh.
  split; [intros Hcoords Hfails run | intros Hfails; split;
                                       [intros Hcoords run | intros Hr5 run]];
    repeat match goal with
           | Hf : Forall _ (_ :: _) |- _ => inversion Hf; clear Hf; subst
           end;
    subst run answers.
  - unfold ForecastWidget.fetchSvgFromUrl. rewrite Hcoords.
    rewrite fetchFromForecastApi_retry by (auto; lia). next_attempt.
    rewrite fetchFromForecastApi_retry by (auto; lia). next_attempt.
    rewrite fetchFromForecastApi_retry by (auto; lia). next_attempt.
    rewrite fetchFromForecastApi_retry by (auto; lia). next_attempt.
    unfold ForecastWidget.fetchFromForecastApi. next_attempt.
    match goal with Hf : ForecastWidget.forecastSvg _ a5 = None |- _ => rewrite Hf end.
    cbn [Nat.ltb Nat.leb].
    change (usableFallback _) with (usableFallback w). rewrite Hfb.
    repeat split.
  - unfold ForecastWidget.fetchSvgFromUrl. rewrite Hcoords.
    rewrite fetchSvgDirect_retry by (auto; lia). next_attempt.
    rewrite fetchSvgDirect_retry by (auto; lia). next_attempt.
    rewrite fetchSvgDirect_retry by (auto; lia). next_attempt.
    rewrite fetchSvgDirect_retry by (auto; lia). next_attempt.
    unfold ForecastWidget.fetchSvgDirect.
    match goal with Hf : fetchedSvg a5 = None |- _ => rewrite Hf end.
    cbn [Nat.ltb Nat.leb].
    change (usableFallback _) with (usableFallback w). rewrite Hfb.
    repeat split.
  - rewrite fetchSvgFromUrl_retry by (auto; lia). next_attempt.
    rewrite fetchSvgFromUrl_retry by (auto; lia). next_attempt.
    rewrite fetchSvgFromUrl_retry by (auto; lia). next_attempt.
    rewrite fetchSvgFromUrl_retry by (auto; lia). next_attempt.
    unfold ExternalWidget.fetchSvgFromUrl.
    match goal with Hf : fetchedSvg a5 = None |- _ => rewrite Hf end.
    next_attempt. cbn [Nat.ltb Nat.leb].
    change (usableFallback _) with (usableFallback w). rewrite Hfb.
    cbn [fst snd state setState]. unfold content. cbn [isLoading error displayMode externalUrl truthyString].
    rewrite Hr5. repeat split.
Qed.

(** Property X13.  After [processSvg] on an input without an [svg]
    element, [render] shows the error "Invalid SVG content" (with the
    refresh button when a [sourceUrl] is configured) and no controls, while
    the [svgHtml] displayed before stays in the state. *)
Theorem invalid_document_hides_retained svgCode w :
  svgElementOf svgCode = None ->
  let w' := processSvg svgCode w in
  content (config w') (state w')
  = ErrorView "Invalid SVG content" (isSome (truthyString (sourceUrl (config w))))
  /\ showControls (config w') (state w') = false
  /\ svgHtml (state w') = svgHtml (state w).
Proof.
  intros Hnone. unfold processSvg. rewrite Hnone. cbn.
  repeat split. unfold showControls. cbn. now rewrite andb_false_r.
Qed.
End Exhausted.

Lemma loading_while_retry_pending_witness :
  let w' := fst (@eventLoop simpleDom simpleUrl emptyChart
                   [(plainUrl, None); (plainUrl, respond "<svg></svg>" None)]
                   (@ExternalWidget.fetchSvgFromUrl simpleDom plainUrl 1 plainUrl None
                      exampleWorld)) in
  timers exampleWorld = []
  /\ isLoading (state w') = pendingRetry w' /\ (List.length (timers w') <= 1)%nat.
Proof.
  intros w'.
  assert (Ht : timers exampleWorld = []) by reflexivity.
  split; [exact Ht |].
  exact (proj2 (@loading_while_retry_pending simpleDom simpleUrl emptyChart
                  plainUrl plainUrl None
                  [(plainUrl, None); (plainUrl, respond "<svg></svg>" None)]
                  exampleWorld Ht)).
Defined.

Lemma retries_exhausted_witness :
  let run := @eventLoop simpleDom simpleUrl emptyChart fourFailures
               (@ExternalWidget.fetchSvgFromUrl simpleDom plainUrl 1 plainUrl None
                  exampleWorld) in
  usableFallback exampleWorld = None
  /\ snd run = backoff
  /\ content exampleConfig (state (fst run)) = ExternalView plainUrl
  /\ rawSvg (state (fst run)) = None
  /\ svgHtml (state (fst run)) = None.
Proof.
  intros run.
  assert (Hfb : usableFallback exampleWorld = None) by reflexivity.
  assert (Hfails : Forall (fun a => @fetchedSvg simpleDom a = None) [None; None; None; None; None])
    by (repeat constructor).
  split; [exact Hfb |].
  exact (proj2 (proj2 (@retries_exhausted simpleDom simpleUrl emptyChart
                         plainUrl {| lat := Finite 60; lon := Finite 10 |} plainUrl
                         None None None None None plainUrl plainUrl plainUrl plainUrl
                         exampleWorld Hfb) Hfails) eq_refl).
Defined.

Lemma invalid_document_hides_retained_witness :
  let w := showing "<svg></svg>" "old" in
  let w' := @processSvg simpleDom "no document" w in
  @svgElementOf simpleDom "no document" = None
  /\ content (config w') (state w') = ErrorView "Invalid SVG content" true
  /\ showControls (config w') (state w') = false
  /\ svgHtml (state w') = Some "old".
Proof.
  intros w w'.
  assert (Hnone : @svgElementOf simpleDom "no document" = None) by reflexivity.
  split; [exact Hnone |].
  exact (@invalid_document_hides_retained simpleDom "no document" w Hnone).
Defined.

(* ------------------------------------------------------------------ *)
(** ** The life cycle *)

Section LifecycleProperties.
Context {dom : DomApi} {urlApi : UrlApi} {host : ForecastHost}.
Variable revision : Revision.

Lemma acceptSvg_config svgString w : config (acceptSvg svgString w) = config w.
Proof.
  unfold acceptSvg. destruct (processSvg_frame svgString w) as (Hc & _ & _).
  now destruct (startsWith "<svg" svgString).
Qed.

(** The handlers read the configuration and never change it. *)
Lemma runTask_config task requestUrl answer w :
  config (runTask task requestUrl answer w) = config w.
Proof.
  destruct task as [url k | url k | url coords k]; cbn [runTask].
  - unfold ExternalWidget.fetchSvgFromUrl.
    assert (Hb : config (ExternalWidget.beginAttempt k w) = config w)
      by (unfold ExternalWidget.beginAttempt; now destruct (k =? 1)%nat).
    destruct (fetchedSvg answer); [now rewrite acceptSvg_config |].
    destruct (k <? 5)%nat; [exact Hb |].
    destruct (usableFallback _); [| exact Hb].
    now destruct (processSvg_frame s (ExternalWidget.beginAttempt k w)) as (-> & _).
  - unfold ForecastWidget.fetchSvgDirect.
    destruct (fetchedSvg answer); [now rewrite acceptSvg_config |].
    destruct (k <? 5)%nat; [reflexivity |].
    destruct (usableFallback _); [| reflexivity].
    now destruct (processSvg_frame s w) as (-> & _).
  - unfold ForecastWidget.fetchFromForecastApi.
    destruct (ForecastWidget.forecastSvg (config w) answer).
    + cbn. now destruct (processSvg_frame s w) as (-> & _).
    + destruct (k <? 5)%nat; [reflexivity |].
      destruct (usableFallback _); [| reflexivity].
      now destruct (processSvg_frame s w) as (-> & _).
Qed.

Lemma fetchSvgFromUrl_config url requestUrl answer w :
  config (fetchSvgFromUrl revision url requestUrl answer w) = config w.
Proof.
  unfold fetchSvgFromUrl. destruct revision.
  - unfold ForecastWidget.fetchSvgFromUrl.
    destruct (extractCoordinates url) as [c |].
    + exact (runTask_config (FetchFromForecastApi url c 1) requestUrl answer _).
    + exact (runTask_config (FetchSvgDirect url 1) requestUrl answer _).
  - exact (runTask_config (FetchSvgFromUrl url 1) requestUrl answer w).
Qed.

Lemma handleDataSourceChange_config requestUrl answer w :
  config (handleDataSourceChange revision requestUrl answer w) = config w.
Proof.
  unfold handleDataSourceChange.
  destruct (truthyString (sourceUrl (config w))); [apply fetchSvgFromUrl_config |].
  destruct (truthyString (svgCode (config w))); [| reflexivity].
  destruct (negb _); [| reflexivity].
  now destruct (processSvg_frame s w) as (-> & _).
Qed.

Lemma refreshConsistent_owns c : refreshConsistent c -> ownsIntervals c.
Proof.
  unfold refreshConsistent, ownsIntervals.
  destruct (intervals c) as [| [id ms] [| e l]]; [now left | | intros []].
  intros (Hid & _). right. now exists id, ms.
Qed.

Lemma clearRefresh_stops c : ownsIntervals c -> intervals (clearRefresh c) = [].
Proof.
  unfold clearRefresh. intros [Hnone | (id & ms & Hid & Hint)].
  - destruct (refreshIntervalId c); [| exact Hnone]. cbn. now rewrite Hnone.
  - rewrite Hid. cbn. rewrite Hint. cbn. now rewrite Nat.eqb_refl.
Qed.

Lemma setupAutoRefresh_consistent c :
  ownsIntervals c -> refreshConsistent (setupAutoRefresh c).
Proof.
  intros Hown. unfold setupAutoRefresh.
  pose proof (clearRefresh_stops c Hown) as Hstop.
  assert (Hw : world (clearRefresh c) = world c)
    by (unfold clearRefresh; now destruct (refreshIntervalId c)).
  cbn zeta. rewrite Hw.
  destruct (autoRefreshEnabled (config (world c))) eqn:Ee; cbn [andb];
    [| unfold refreshConsistent; now rewrite Hstop].
  destruct (0 <? refreshInterval (config (world c)))%nat eqn:Ei; cbn [andb];
    [| unfold refreshConsistent; now rewrite Hstop].
  destruct (isSome (truthyString (sourceUrl (config (world c))))) eqn:Es;
    [| unfold refreshConsistent; now rewrite Hstop].
  unfold refreshConsistent, setInterval. cbn. rewrite Hstop, Hw.
  apply Nat.ltb_lt in Ei. auto.
Qed.

Lemma withWorld_owns w c : ownsIntervals c -> ownsIntervals (withWorld w c).
Proof. intros H. exact H. Qed.

Lemma optionString_eqb_eq a b : optionString_eqb a b = true -> a = b.
Proof.
  destruct a, b; cbn; try discriminate; [| reflexivity].
  intros H. apply String.eqb_eq in H. now subst.
Qed.

Lemma fetchRelevant_same cfg prev :
  fetchRelevantChanged cfg prev = false ->
  sourceUrl cfg = sourceUrl prev /\ autoRefreshEnabled cfg = autoRefreshEnabled prev
  /\ refreshInterval cfg = refreshInterval prev.
Proof.
  unfold fetchRelevantChanged. intros H.
  apply orb_false_iff in H as [H Hi]. apply orb_false_iff in H as [Hu He].
  apply negb_false_iff in Hu, He, Hi.
  split; [now apply optionString_eqb_eq |].
  split; [now apply Bool.eqb_prop | now apply Nat.eqb_eq].
Qed.

(** Consistency looks at the three options that [fetchRelevantChanged]
    compares, and at nothing else of the world. *)
Lemma refreshConsistent_world w c :
  sourceUrl (config w) = sourceUrl (config (world c)) ->
  autoRefreshEnabled (config w) = autoRefreshEnabled (config (world c)) ->
  refreshInterval (config w) = refreshInterval (config (world c)) ->
  refreshConsistent c -> refreshConsistent (withWorld w c).
Proof.
  intros Hu He Hi. unfold refreshConsistent. cbn [intervals withWorld world refreshIntervalId].
  destruct (intervals c) as [| [id ms] [| e l]]; [auto | | auto].
  cbn zeta. now rewrite Hu, He, Hi.
Qed.

Lemma lifecycleStep_consistent c e :
  refreshConsistent c -> refreshConsistent (lifecycleStep revision c e).
Proof.
  intros Hc. pose proof (refreshConsistent_owns c Hc) as Hown.
  destruct e as [[cfg |] r a | r a | r a |]; cbn [lifecycleStep].
  - unfold componentDidUpdate. cbn [world withWorld config withConfig].
    destruct (fetchRelevantChanged cfg (config (world c))) eqn:Ef.
    + apply setupAutoRefresh_consistent. exact Hown.
    + apply fetchRelevant_same in Ef as (Hu & He & Hi).
      cbn [state withConfig].
      destruct (truthyString (rawSvg (state (world c)))) as [raw |].
      * apply (refreshConsistent_world _ c); [| | | exact Hc];
          destruct (processSvg_frame raw (withConfig cfg (world c))) as (-> & _);
          assumption.
      * now apply (refreshConsistent_world _ c).
  - unfold componentDidUpdate.
    destruct (fetchRelevantChanged _ _); [| exact Hc].
    apply setupAutoRefresh_consistent. exact Hown.
  - destruct (timers (world c)) as [| [d task] pending]; [exact Hc |].
    apply (refreshConsistent_world _ c); [| | | exact Hc];
      now rewrite runTask_config.
  - destruct (intervals c) eqn:Ei; [exact Hc |].
    destruct (sourceUrl (config (world c))) as [url |] eqn:Eu; [| exact Hc].
    apply (refreshConsistent_world _ c); [| | | exact Hc];
      rewrite fetchSvgFromUrl_config; congruence.
  - unfold componentWillUnmount, refreshConsistent.
    now rewrite clearRefresh_stops.
Qed.

(** Property X14.  Whatever happens to a mounted component (new props, a
    retry timer or the refresh interval firing, unmounting), at most one
    refresh interval runs; the one that runs is the one the component holds
    in [refreshIntervalId], has the period [refreshInterval * 60 * 1000] of
    the current configuration, and the configuration enables auto-refresh
    with a positive interval and a [sourceUrl].  [componentWillUnmount]
    leaves no interval running, and leaves the pending retry timers as they
    are. *)
Theorem refresh_timer_consistent cfg requestUrl answer events :
  let c := fold_left (lifecycleStep revision) events
             (mounted revision cfg requestUrl answer) in
  refreshConsistent c
  /\ intervals (componentWillUnmount c) = []
  /\ timers (world (componentWillUnmount c)) = timers (world c).
Proof.
  intros c.
  assert (Hc : refreshConsistent c).
  { subst c. set (c0 := mounted revision cfg requestUrl answer).
    assert (H0 : refreshConsistent c0)
      by (apply setupAutoRefresh_consistent; now left).
    clearbody c0. revert c0 H0.
    induction events as [| e events IH]; intros c0 H0; [exact H0 |].
    cbn [fold_left]. apply IH. now apply lifecycleStep_consistent. }
  split; [exact Hc |]. split.
  - apply clearRefresh_stops. now apply refreshConsistent_owns.
  - unfold componentWillUnmount, clearRefresh. now destruct (refreshIntervalId c).
Qed.

(** Property X15.  When [sourceUrl], [autoRefreshEnabled] and
    [refreshInterval] are those of the previous props, [componentDidUpdate]
    asks nothing of the network: its result does not depend on any answer,
    and the retry timers, the setting changes, the refresh interval and the
    retained [rawSvg] are as before.  When the configuration object is a
    new one and the retained document parses, the document is displayed
    anew, sanitized with the current theme. *)
Theorem theme_change_keeps_document prev replaced c :
  fetchRelevantChanged (config (world c)) prev = false ->
  forall requestUrl answer,
    let c' := componentDidUpdate revision prev replaced requestUrl answer c in
    (forall requestUrl' answer',
       componentDidUpdate revision prev replaced requestUrl' answer' c = c')
    /\ timers (world c') = timers (world c)
    /\ settingChanges (world c') = settingChanges (world c)
    /\ intervals c' = intervals c
    /\ rawSvg (state (world c')) = rawSvg (state (world c))
    /\ (forall raw svg,
          replaced = true -> truthyString (rawSvg (state (world c))) = Some raw ->
          svgElementOf raw = Some svg ->
          Ready raw (outerHTML (sanitizeSvg (overallBackground (config (world c))) svg))
                (state (world c'))).
Proof.
  intros Hsame requestUrl answer. unfold componentDidUpdate. rewrite Hsame.
  cbn zeta. split; [reflexivity |].
  destruct replaced; [| repeat split; intros; discriminate].
  destruct (truthyString (rawSvg (state (world c)))) as [raw |] eqn:Eraw;
    [| repeat split; intros; discriminate].
  cbn [world withWorld intervals].
  destruct (processSvg_frame raw (world c)) as (_ & Ht & Hs).
  split; [exact Ht |]. split; [exact Hs |]. split; [reflexivity |]. split.
  - unfold processSvg. destruct (svgElementOf raw); cbn; [| reflexivity].
    unfold truthyString in Eraw. destruct (rawSvg (state (world c))) as [r |]; [| discriminate].
    destruct (nonEmpty r); congruence.
  - intros raw' svg0 _ [= <-] Hsvg. now apply processSvg_Ready.
Qed.

(** Property X16.  Without a [sourceUrl], [handleDataSourceChange] asks
    nothing of the network: its result does not depend on any answer, it
    adds no timer and no setting change, and it ends the loading.  A
    configured [svgCode] that is no [<!--] placeholder and parses is
    displayed, sanitized; with no [svgCode], or a placeholder, the displayed
    and the retained document and the error are cleared, and the revision
    with the external view shows its placeholder. *)
Theorem literal_document_without_url w :
  truthyString (sourceUrl (config w)) = None ->
  forall requestUrl answer,
    let w' := handleDataSourceChange revision requestUrl answer w in
    (forall requestUrl' answer',
       handleDataSourceChange revision requestUrl' answer' w = w')
    /\ timers w' = timers w
    /\ settingChanges w' = settingChanges w
    /\ isLoading (state w') = false
    /\ (forall code svg,
          truthyString (svgCode (config w)) = Some code ->
          startsWith "<!--" (trim code) = false ->
          svgElementOf code = Some svg ->
          Ready code (outerHTML (sanitizeSvg (overallBackground (config w)) svg))
                (state w'))
    /\ ((forall code, truthyString (svgCode (config w)) = Some code ->
                      startsWith "<!--" (trim code) = true) ->
        svgHtml (state w') = None /\ rawSvg (state w') = None
        /\ error (state w') = None
        /\ (revision = externalViewRevision ->
            content (config w') (state w') = Placeholder)).
Proof.
  intros Hurl requestUrl answer. unfold handleDataSourceChange. rewrite Hurl.
  cbn zeta. split; [reflexivity |].
  destruct (truthyString (svgCode (config w))) as [code |] eqn:Ecode.
  - destruct (startsWith "<!--" (trim code)) eqn:Ep; cbn [negb].
    + repeat split; try reflexivity; try (intros; congruence).
      all: intros; subst revision; reflexivity.
    + destruct (processSvg_frame code w) as (_ & Ht & Hs).
      split; [exact Ht |]. split; [exact Hs |].
      split; [apply processSvg_loaded |]. split.
      * intros code' svg [= <-] _ Hsvg. now apply processSvg_Ready.
      * intros Hall. specialize (Hall code eq_refl). congruence.
  - repeat split; try reflexivity; try (intros; congruence).
    all: intros; subst revision; reflexivity.
Qed.
End LifecycleProperties.

Lemma theme_change_keeps_document_witness :
  let prev := {| sourceUrl := Some exampleUrl; svgCode := None;
                 overallBackground := "#000"; autoRefreshEnabled := false;
                 refreshInterval := 0 |} in
  let c := {| world := showing "<svg></svg>" "old"; refreshIntervalId := None;
              intervals := []; issuedIds := 0 |} in
  let c' := @componentDidUpdate simpleDom simpleUrl emptyChart externalViewRevision
              prev true plainUrl None c in
  fetchRelevantChanged (config (world c)) prev = false
  /\ Ready "<svg></svg>" (@outerHTML simpleDom (sanitizeSvg "#fff" (Element "svg" [] [])))
           (state (world c')).
Proof.
  intros prev c c'.
  assert (Hsame : fetchRelevantChanged (config (world c)) prev = false) by reflexivity.
  split; [exact Hsame |].
  destruct (@theme_change_keeps_document simpleDom simpleUrl emptyChart
              externalViewRevision prev true c Hsame plainUrl None)
    as (_ & _ & _ & _ & _ & Hready).
  exact (Hready "<svg></svg>" (Element "svg" [] []) eq_refl eq_refl eq_refl).
Defined.

Lemma literal_document_without_url_witness :
  let w := {| config := {| sourceUrl := None; svgCode := Some "<svg></svg>";
                           overallBackground := "#fff"; autoRefreshEnabled := true;
                           refreshInterval := 5 |};
              state := initialState; timers := []; settingChanges := [] |} in
  truthyString (sourceUrl (config w)) = None
  /\ Ready "<svg></svg>" (@outerHTML simpleDom (sanitizeSvg "#fff" (Element "svg" [] [])))
           (state (@handleDataSourceChange simpleDom simpleUrl emptyChart
                     forecastRevision plainUrl None w)).
Proof.
  intros w.
  assert (Hurl : truthyString (sourceUrl (config w)) = None) by reflexivity.
  split; [exact Hurl |].
  destruct (@literal_document_without_url simpleDom simpleUrl emptyChart
              forecastRevision w Hurl plainUrl None)
    as (_ & _ & _ & _ & Hready & _).
  exact (Hready "<svg></svg>" (Element "svg" [] []) eq_refl eq_refl eq_refl).
Defined.
